(** * kworker: the request / token / pagination engine of [kworker/api.py]

    A shallow embedding of [KworkAPI.request], the [token] property,
    [get_token], [_fetch_paginated_data], [get_all_dialogs], [get_projects]
    and [send_message], with the properties of the specification stated
    over it.

    Python values are the JSON values the client handles; keyword arguments
    and decoded objects are finite maps from strings.  A coroutine is a tree
    whose nodes are the places where [request] touches the outside: the
    logger, the cached token [self._token] and the transport
    ([self.session.request]), the only place where it suspends. *)

From stdpp Require Import gmap strings list fin_maps.
From Stdlib Require Import ZArith Lia Ascii DecimalString.

Local Set Warnings "-register-all".
Local Open Scope string_scope.
Local Open Scope Z_scope.
Local Open Scope list_scope.

(** ** Python values *)

Inductive value : Type :=
| VNone
| VBool (b : bool)
| VInt (n : Z)
| VStr (s : string)
| VList (l : list value)
| VDict (d : gmap string value).

(** [bool(v)]: the truth value Python gives to [v]. *)
Definition truthy (v : value) : bool :=
  match v with
  | VNone => false
  | VBool b => b
  | VInt n => negb (n =? 0)
  | VStr s => negb (String.eqb s "")
  | VList l => match l with [] => false | _ => true end
  | VDict d => negb (bool_decide (d = ∅))
  end.

Definition is_none (v : value) : bool :=
  match v with VNone => true | _ => false end.

(** ** Strings: [str.lower] and the [in] test *)

(** A string is the sequence of the bytes of its UTF-8 encoding.  On ASCII
    [str.lower] maps a capital letter [A-Z] to its small letter and keeps
    the other characters. *)
Definition lower_ascii (c : ascii) : ascii :=
  let n := nat_of_ascii c in
  if ((65 <=? n) && (n <=? 90))%nat then ascii_of_nat (n + 32) else c.

Definition is_byte (n : nat) (c : ascii) : bool := (nat_of_ascii c =? n)%nat.

(** U+212A KELVIN SIGN, bytes E2 84 AA. *)
Definition kelvin_sign : string :=
  String (ascii_of_nat 226) (String (ascii_of_nat 132)
    (String (ascii_of_nat 170) EmptyString)).

(** U+0130 LATIN CAPITAL LETTER I WITH DOT ABOVE, bytes C4 B0. *)
Definition capital_i_with_dot : string :=
  String (ascii_of_nat 196) (String (ascii_of_nat 176) EmptyString).

(** U+0307 COMBINING DOT ABOVE, bytes CC 87. *)
Definition combining_dot_above : string :=
  String (ascii_of_nat 204) (String (ascii_of_nat 135) EmptyString).

(** [str.lower] follows Unicode outside ASCII.  Two characters there have
    a lower-case form with an ASCII letter in it: the Kelvin sign, whose
    lower case is [k], and the capital I with dot above, whose lower case
    is [i] followed by the combining dot above.  The lower-case form of
    every other character outside ASCII is made of characters outside
    ASCII again; [lower] keeps the bytes of such a character, and so has
    the ASCII characters of [str.lower], with the same ones next to each
    other: an [in] test for an ASCII word, as the code makes, has the same
    answer on both. *)
Fixpoint lower (s : string) : string :=
  match s with
  | EmptyString => EmptyString
  | String c t =>
      match t with
      | String c1 t1 =>
          if is_byte 196 c && is_byte 176 c1
          then String "i" (combining_dot_above +:+ lower t1)
          else
            match t1 with
            | String c2 t2 =>
                if is_byte 226 c && is_byte 132 c1 && is_byte 170 c2
                then String "k" (lower t2)
                else String (lower_ascii c) (lower t)
            | EmptyString => String (lower_ascii c) (lower t)
            end
      | EmptyString => String (lower_ascii c) (lower t)
      end
  end.

(** [needle in hay] on strings: [needle] occurs as a substring of [hay]. *)
Fixpoint str_in (needle hay : string) : bool :=
  String.prefix needle hay
  || match hay with
     | EmptyString => false
     | String _ t => str_in needle t
     end.

(** What the specification calls "contains (case-insensitive)", written
    without [lower]: some segment of the message spells the needle, each
    letter of the needle being written as the letter itself or as a
    capital of it.  The capitals of a letter are its ASCII capital and,
    for [k], the Kelvin sign. *)
Definition ci_char (c n : ascii) : Prop :=
  c = n \/ ((97 <= nat_of_ascii n <= 122)%nat
            /\ (nat_of_ascii c + 32 = nat_of_ascii n)%nat).

Fixpoint ci_spells (mid needle : string) : Prop :=
  match needle with
  | EmptyString => mid = EmptyString
  | String n t =>
      (exists c m, mid = String c m /\ ci_char c n /\ ci_spells m t)
      \/ (n = "k"%char
          /\ exists m, mid = kelvin_sign +:+ m /\ ci_spells m t)
  end.

Definition contains_ci (needle msg : string) : Prop :=
  exists pre mid post, msg = pre +:+ mid +:+ post /\ ci_spells mid needle.

(** The same containment as a test that can be run. *)
Definition ci_charb (c n : ascii) : bool :=
  Ascii.eqb c n
  || ((97 <=? nat_of_ascii n) && (nat_of_ascii n <=? 122)
      && (nat_of_ascii c + 32 =? nat_of_ascii n))%nat.

Definition after_kelvin (s : string) : option string :=
  match s with
  | String c (String c1 (String c2 t)) =>
      if is_byte 226 c && is_byte 132 c1 && is_byte 170 c2
      then Some t else None
  | _ => None
  end.

Fixpoint starts_ci (needle s : string) : bool :=
  match needle with
  | EmptyString => true
  | String n t =>
      match s with
      | EmptyString => false
      | String c m => ci_charb c n && starts_ci t m
      end
      || (Ascii.eqb n "k"
          && match after_kelvin s with
             | Some m => starts_ci t m
             | None => false
             end)
  end.

Fixpoint occurs_ci (needle s : string) : bool :=
  starts_ci needle s
  || match s with
     | EmptyString => false
     | String _ t => occurs_ci needle t
     end.

(** The needles of the code are words of small letters that do not end in
    [i]. *)
Definition letter (c : ascii) : bool :=
  ((97 <=? nat_of_ascii c) && (nat_of_ascii c <=? 122))%nat.

Fixpoint letters (s : string) : bool :=
  match s with
  | EmptyString => true
  | String c t => letter c && letters t
  end.

Fixpoint no_final_i (s : string) : bool :=
  match s with
  | EmptyString => true
  | String c t =>
      match t with
      | EmptyString => negb (Ascii.eqb c "i")
      | String _ _ => no_final_i t
      end
  end.

(** ** Exceptions *)

(** Modelled from the spec: [kworker/exceptions.py] is not among the sources.
    The six classes [api.py] raises are the kinds of the specification's
    error taxonomy (section 7), pairwise distinct; each of them, like the
    exceptions of the interpreter and of the transport library, is an
    [Exception].  [KworkException] is the "generic system error",
    [KworkApiException] the protocol / generic API error. *)
Inductive exc_class : Type :=
| KworkException
| KworkApiException
| KworkAuthException
| KworkRateLimitException
| KworkValidationException
| KworkConnectionException
| ClientError          (* aiohttp.ClientError *)
| JSONDecodeError      (* json.JSONDecodeError *)
| AttributeError
| TypeError
| KeyError
| OtherError.          (* anything else, e.g. asyncio.TimeoutError or a
                          model's validation error *)

Global Instance exc_class_eq_dec : EqDecision exc_class.
Proof. solve_decision. Defined.

(** [request_info = {"method": method, "url": url, "params": log_params}] *)
Record request_info : Type := RequestInfo {
  ri_method : string;
  ri_url : string;
  ri_params : gmap string value
}.

(** An exception object: its class, its message, the [code] and
    [request_info] keyword arguments and the [__cause__] set by
    [raise ... from e]. *)
Inductive exn : Type :=
| Exn (cls : exc_class) (msg : string) (code : value)
      (info : option request_info) (cause : option exn).

Definition exn_class (e : exn) : exc_class :=
  match e with Exn c _ _ _ _ => c end.
Definition exn_msg (e : exn) : string :=
  match e with Exn _ m _ _ _ => m end.
Definition exn_code (e : exn) : value :=
  match e with Exn _ _ c _ _ => c end.
Definition exn_info (e : exn) : option request_info :=
  match e with Exn _ _ _ i _ => i end.
Definition exn_cause (e : exn) : option exn :=
  match e with Exn _ _ _ _ c => c end.

(** [isinstance(e, c)] for the classes an [except] clause of [request]
    names. *)
Definition isinstance (e : exn) (c : exc_class) : bool :=
  bool_decide (exn_class e = c).

(** An exception raised by the interpreter itself carries no keyword
    arguments. *)
Definition builtin_exn (c : exc_class) (m : string) : exn :=
  Exn c m VNone None None.

(** ** Operations of Python on values *)

(** [v.get(key, default)]: only a dict has [get]. *)
Definition py_get (v : value) (key : string) (dflt : value)
  : exn + value :=
  match v with
  | VDict d => inr (default dflt (d !! key))
  | _ => inl (builtin_exn AttributeError "object has no attribute 'get'")
  end.

(** [v[key]] for a string key. *)
Definition py_getitem (v : value) (key : string) : exn + value :=
  match v with
  | VDict d =>
      match d !! key with
      | Some x => inr x
      | None => inl (builtin_exn KeyError key)
      end
  | _ => inl (builtin_exn TypeError "indices must be integers")
  end.

(** [v <= 1] *)
Definition py_le_1 (v : value) : exn + bool :=
  match v with
  | VInt n => inr (n <=? 1)
  | VBool _ => inr true
  | _ => inl (builtin_exn TypeError "'<=' not supported")
  end.

Definition chars_of (s : string) : list value :=
  (fun c => VStr (String c EmptyString)) <$> String.list_ascii_of_string s.

(** Iterating over [v] ([for item in v], [list.extend(v)]): the elements
    of a list, the keys of a dict, the characters of a string. *)
Definition py_iter (v : value) : exn + list value :=
  match v with
  | VList l => inr l
  | VDict d => inr (VStr <$> (map_to_list d).*1)
  | VStr s => inr (chars_of s)
  | _ => inl (builtin_exn TypeError "object is not iterable")
  end.

(** [range(2, v + 1)] as the list of its page numbers. *)
Definition py_range_2 (v : value) : exn + list Z :=
  match v with
  | VInt n => inr (Z.of_nat <$> seq 2 (Z.to_nat (n - 1)))
  | VBool _ => inr []
  | _ => inl (builtin_exn TypeError "unsupported operand type(s) for +")
  end.

(** ** The transport, the logger and coroutines *)

(** What [self.session.request(method=, url=, headers=, params=, timeout=)]
    is called with. *)
Record net_request : Type := NetRequest {
  rq_method : string;
  rq_url : string;
  rq_authorization : string;
  rq_params : gmap string value;
  rq_timeout : Z
}.

(** What the transport answers: it raises (an [aiohttp.ClientError] or
    something else, such as a timeout), or it delivers a response with its
    status, content type, text, and the result of decoding the text as
    JSON ([inl] is the message of the [json.JSONDecodeError]). *)
Inductive transport_result : Type :=
| TransportRaises (cls : exc_class) (msg : string)
| TransportResponse (status : Z) (content_type : string) (text : string)
                    (decoded : string + value).

Inductive log_entry : Type :=
| LogRequest (method : string) (api_method : option string)
             (log_params : gmap string value)
| LogResponse (status : Z) (success : value)
| LogDebug (msg : string)
| LogWarning (msg : string)
| LogError (msg : string) (exc : option exn).

(** A coroutine returning an [A].  [Await] is the one suspension point,
    the call of the transport; [Diverge] stands for a run that is cut off
    before it comes back: the recursion of [request] through [get_token]
    and the loop of [get_all_dialogs] are not bounded by the code. *)
Inductive coro (A : Type) : Type :=
| Ret (a : A)
| Raise (e : exn)
| Diverge
| Log (l : log_entry) (k : coro A)
| GetToken (k : value -> coro A)
| SetToken (t : value) (k : coro A)
| Await (rq : net_request) (k : transport_result -> coro A).

Arguments Ret {A} a.
Arguments Raise {A} e.
Arguments Diverge {A}.
Arguments Log {A} l k.
Arguments GetToken {A} k.
Arguments SetToken {A} t k.
Arguments Await {A} rq k.

Fixpoint coro_bind {A B : Type} (f : A -> coro B) (c : coro A) : coro B :=
  match c with
  | Ret a => f a
  | Raise e => Raise e
  | Diverge => Diverge
  | Log l k => Log l (coro_bind f k)
  | GetToken k => GetToken (fun t => coro_bind f (k t))
  | SetToken t k => SetToken t (coro_bind f k)
  | Await rq k => Await rq (fun r => coro_bind f (k r))
  end.

Global Instance coro_mret : MRet coro := fun A a => Ret a.
Global Instance coro_mbind : MBind coro := fun A B f c => coro_bind f c.

(** [try: c  except Exception as e: h e] (the clauses of [h] choose by
    class).  What [h] raises or runs is outside the [try]. *)
Fixpoint catch {A : Type} (c : coro A) (h : exn -> coro A) : coro A :=
  match c with
  | Ret a => Ret a
  | Raise e => h e
  | Diverge => Diverge
  | Log l k => Log l (catch k h)
  | GetToken k => GetToken (fun t => catch (k t) h)
  | SetToken t k => SetToken t (catch k h)
  | Await rq k => Await rq (fun r => catch (k r) h)
  end.

(** A pure step that returns or raises. *)
Definition lift {A : Type} (r : exn + A) : coro A :=
  match r with
  | inl e => Raise e
  | inr a => Ret a
  end.

(** ** [KworkAPI] *)

Record KworkAPI : Type := {
  login : string;
  password : string;
  phone_last : value;
  api_key : string
}.

Definition BASE_URL_format (api_method : option string) : string :=
  "https://api.kwork.ru/" +:+ default "None" api_method.

Definition DEFAULT_API_KEY : string :=
  "Basic bW9iaWxlX2FwaTpxRnZmUmw3dw==".

(** Truth value of an [Optional[str]] argument. *)
Definition opt_truthy (o : option string) : bool :=
  match o with
  | Some s => negb (String.eqb s "")
  | None => false
  end.

(** [full_url or BASE_URL.format(api_method)] *)
Definition url_of (api_method full_url : option string) : string :=
  if opt_truthy full_url then default "" full_url
  else BASE_URL_format api_method.

(** [{k: v for k, v in params.items() if v is not None}] *)
Definition drop_none (params : gmap string value) : gmap string value :=
  filter (fun kv => is_none kv.2 = false) params.

(** [if key in log_params: log_params[key] = '***'] *)
Definition redact (key : string) (log_params : gmap string value)
  : gmap string value :=
  match log_params !! key with
  | Some _ => <[key := VStr "***"]> log_params
  | None => log_params
  end.

(** The three-way test of lines 99-105 on the error message. *)
Definition classify (error_msg : string) : exc_class :=
  if str_in "limit" (lower error_msg) then KworkRateLimitException
  else if str_in "auth" (lower error_msg) || str_in "token" (lower error_msg)
       then KworkAuthException
       else KworkApiException.

(** [str(e)] *)
Definition str_exn (e : exn) : string := exn_msg e.

Section RequestBody.
Variable self : KworkAPI.

(** [self.request], as the body below calls it. *)
Variable self_request :
  string -> option string -> option string -> Z -> bool ->
  gmap string value -> coro value.

(** [get_token]: sign in, and take [response.token] out of the answer. *)
Definition get_token_body : coro value :=
  resp ← self_request "post" (Some "signIn") None 10 false
           {[ "login" := VStr (login self);
              "password" := VStr (password self);
              "phone_last" := phone_last self ]};
  r ← lift (py_get resp "response" (VDict ∅));
  token ← lift (py_get r "token" VNone);
  if negb (truthy token)
  then Raise (Exn KworkAuthException
                "Failed to retrieve token from signIn response."
                VNone None None)
  else Ret token.

(** The [token] property: the cached token, or a sign-in that fills the
    cache. *)
Definition token_body : coro value :=
  GetToken (fun t =>
    if is_none t
    then tok ← get_token_body; SetToken tok (Ret tok)
    else Ret t).

(** Lines 94-106: what [request] makes of a decoded body. *)
Definition check_response (ri : request_info) (status : Z)
    (json_response : value) : coro value :=
  success ← lift (py_get json_response "success" VNone);
  Log (LogResponse status success)
    (if negb (truthy success)
     then
       error_msg ← lift (py_get json_response "error"
                            (VStr "Unknown error"));
       error_code ← lift (py_get json_response "error_code" VNone);
       match error_msg with
       | VStr m => Raise (Exn (classify m) m error_code (Some ri) None)
       | _ => Raise (builtin_exn AttributeError
                       "object has no attribute 'lower'")
       end
     else Ret json_response).

(** Lines 86-106: the body of the [try]. *)
Definition try_body (rq : net_request) (ri : request_info) : coro value :=
  Await rq (fun r =>
    match r with
    | TransportRaises cls msg => Raise (builtin_exn cls msg)
    | TransportResponse status content_type text decoded =>
        if negb (String.eqb content_type "application/json")
        then Raise (Exn KworkApiException
                      ("Недопустимый формат ответа: " +:+ text)
                      (VInt status) (Some ri) None)
        else
          match decoded with
          | inl m => Raise (builtin_exn JSONDecodeError m)
          | inr json_response => check_response ri status json_response
          end
    end).

(** Lines 109-126: the [except] clauses, in their order. *)
Definition handlers (method : string) (api_method full_url : option string)
    (timeout : Z) (retried : bool) (params : gmap string value)
    (ri : request_info) (e : exn) : coro value :=
  if isinstance e KworkAuthException then
    if negb retried then
      Log (LogWarning
             "Authentication error, attempting to refresh token and retry.")
        (SetToken VNone
           (tok ← token_body;
            self_request method api_method full_url timeout true
              (<["token" := tok]> params)))
    else
      Log (LogError "Authentication failed even after token refresh." None)
        (Raise e)
  else if isinstance e ClientError then
    Raise (Exn KworkConnectionException ("Ошибка сети: " +:+ str_exn e)
             VNone (Some ri) (Some e))
  else if isinstance e JSONDecodeError then
    Raise (Exn KworkApiException ("Недопустимый json: " +:+ str_exn e)
             VNone (Some ri) (Some e))
  else
    Log (LogError "An unexpected error occurred during the request."
           (Some e))
      (Raise (Exn KworkException ("Неизвестная ошибка: " +:+ str_exn e)
                VNone (Some ri) (Some e))).

Definition request_body (method : string)
    (api_method full_url : option string) (timeout : Z) (retried : bool)
    (kwargs : gmap string value) : coro value :=
  let params := drop_none kwargs in
  let log_params := redact "token" (redact "password" params) in
  Log (LogRequest method api_method log_params)
    (if negb (opt_truthy api_method || opt_truthy full_url)
     then Raise (Exn KworkApiException
                   "Необходимо указать api_method или full_url"
                   VNone None None)
     else
       let url := url_of api_method full_url in
       let ri := RequestInfo method url log_params in
       catch
         (try_body (NetRequest method url (api_key self) params timeout) ri)
         (handlers method api_method full_url timeout retried params ri)).
End RequestBody.

(** [KworkAPI.request].  The code recurses without a bound of its own
    ([request] calls [token], which calls [get_token], which calls
    [request]); the interpreter ends a recursion that goes too deep with an
    error, at a depth the code does not fix.  [fuel] is the depth of calls
    allowed: a coroutine that needs more is cut off there ([Diverge]), and
    what it did until then is what the code does down to that depth. *)
Fixpoint request (fuel : nat) (self : KworkAPI) (method : string)
    (api_method full_url : option string) (timeout : Z) (retried : bool)
    (kwargs : gmap string value) : coro value :=
  match fuel with
  | O => Diverge
  | S fuel' =>
      request_body self (request fuel' self)
        method api_method full_url timeout retried kwargs
  end.

Arguments request : simpl never.

(** [get_token] and [token], whose calls of [request] may go [fuel] deep. *)
Definition get_token (fuel : nat) (self : KworkAPI) : coro value :=
  get_token_body self (request fuel self).

Definition token (fuel : nat) (self : KworkAPI) : coro value :=
  token_body self (request fuel self).

(** ** Running coroutines *)

(** The state a run goes through: the cached token [self._token], the
    requests the transport has been given so far, oldest first, and what
    was logged. *)
Record world : Type := World {
  w_token : value;
  w_trace : list net_request;
  w_log : list log_entry
}.

Definition with_token (t : value) (w : world) : world :=
  World t (w_trace w) (w_log w).
Definition with_request (rq : net_request) (w : world) : world :=
  World (w_token w) (w_trace w ++ [rq]) (w_log w).
Definition with_log (l : log_entry) (w : world) : world :=
  World (w_token w) (w_trace w) (w_log w ++ [l]).

Inductive outcome (A : Type) : Type :=
| Returned (a : A)
| Raised (e : exn)
| Diverged.

Arguments Returned {A} a.
Arguments Raised {A} e.
Arguments Diverged {A}.

(** A procedure of the client: from a world to the world it leaves and
    what the caller sees. *)
Definition prog (A : Type) : Type := world -> world * outcome A.

Definition prog_bind {A B : Type} (m : prog A) (f : A -> prog B) : prog B :=
  fun w =>
    match m w with
    | (w', Returned a) => f a w'
    | (w', Raised e) => (w', Raised e)
    | (w', Diverged) => (w', Diverged)
    end.

Definition pure {A : Type} (r : exn + A) : prog A :=
  fun w => (w, match r with inl e => Raised e | inr a => Returned a end).

Notation "x <~ m ;; k" := (prog_bind m (fun x => k))
  (at level 100, m at next level, right associativity).

Global Instance sum_exn_mbind : MBind (sum exn) := fun A B f r =>
  match r with
  | inl e => inl e
  | inr a => f a
  end.

Section Run.
(** The remote service, seen from the client: what the transport answers
    to a request, given the requests it was given before. *)
Variable transport : list net_request -> net_request -> transport_result.

(** A coroutine awaited when nothing else is running. *)
Fixpoint run {A : Type} (c : coro A) : prog A :=
  fun w =>
    match c with
    | Ret a => (w, Returned a)
    | Raise e => (w, Raised e)
    | Diverge => (w, Diverged)
    | Log l k => run k (with_log l w)
    | GetToken k => run (k (w_token w)) w
    | SetToken t k => run k (with_token t w)
    | Await rq k => run (k (transport (w_trace w) rq)) (with_request rq w)
    end.

(** *** [asyncio.gather] with [return_exceptions=True]

    Under the cooperative scheduler a task runs, without interruption,
    from one suspension to the next.  [settle] runs a task up to its
    next suspension; [resume] hands a suspended task the answer to its
    pending request.  The schedule names, step after step, the task
    whose pending request is answered next. *)
Fixpoint settle {A : Type} (c : coro A) (w : world) : world * coro A :=
  match c with
  | Log l k => settle k (with_log l w)
  | GetToken k => settle (k (w_token w)) w
  | SetToken t k => settle k (with_token t w)
  | _ => (w, c)
  end.

Definition resume {A : Type} (c : coro A) (w : world) : world * coro A :=
  match c with
  | Await rq k => settle (k (transport (w_trace w) rq)) (with_request rq w)
  | _ => (w, c)
  end.

(** The tasks start in the order of the list. *)
Fixpoint start_all {A : Type} (tasks : list (coro A)) (w : world)
  : world * list (coro A) :=
  match tasks with
  | [] => (w, [])
  | c :: cs =>
      let '(w1, c1) := settle c w in
      let '(w2, cs') := start_all cs w1 in
      (w2, c1 :: cs')
  end.

Fixpoint schedule {A : Type} (sched : list nat) (pool : list (coro A))
    (w : world) : world * list (coro A) :=
  match sched with
  | [] => (w, pool)
  | i :: rest =>
      match pool !! i with
      | Some c =>
          let '(w', c') := resume c w in
          schedule rest (<[i := c']> pool) w'
      | None => schedule rest pool w
      end
  end.

Definition task_result {A : Type} (c : coro A) : option (exn + A) :=
  match c with
  | Ret a => Some (inr a)
  | Raise e => Some (inl e)
  | _ => None
  end.

(** The results come in the order of the tasks, an exception standing
    for the task that raised it; [gather] does not come back while a
    task is pending. *)
Definition gather {A : Type} (sched : list nat) (tasks : list (coro A))
  : prog (list (exn + A)) :=
  fun w =>
    let '(w1, pool1) := start_all tasks w in
    let '(w2, pool2) := schedule sched pool1 w1 in
    match mapM task_result pool2 with
    | Some results => (w2, Returned results)
    | None => (w2, Diverged)
    end.
End Run.

(** ** The paginator and the methods of the client *)

(** The comprehension building [model] records from [items]: the records
    in order; the first raw record the model refuses raises. *)
Fixpoint map_model {A : Type} (model : value -> exn + A) (items : list value)
  : exn + list A :=
  match items with
  | [] => inr []
  | item :: rest =>
      x ← model item;
      xs ← map_model model rest;
      inr (x :: xs)
  end.

(** [results.extend(v)]: only a list has [extend]. *)
Definition py_extend (results v : value) : exn + value :=
  match results with
  | VList l => items ← py_iter v; inr (VList (l ++ items))
  | _ => inl (builtin_exn AttributeError "object has no attribute 'extend'")
  end.

(** Passing [page=p] next to the keyword arguments [params]: a [page]
    among [params] is a [TypeError]. *)
Definition kwargs_page (p : value) (params : gmap string value)
  : exn + gmap string value :=
  match params !! "page" with
  | Some _ =>
      inl (builtin_exn TypeError
             "got multiple values for keyword argument 'page'")
  | None => inr (<["page" := p]> params)
  end.

(** Lines 168-172: the loop over the gathered responses. *)
Fixpoint merge_pages (api_method : string) (results : value)
    (responses : list (exn + value)) : coro value :=
  match responses with
  | [] => Ret results
  | inl e :: rest =>
      Log (LogError ("Failed to fetch a page for " +:+ api_method +:+ ": "
                       +:+ str_exn e) None)
        (merge_pages api_method results rest)
  | inr response :: rest =>
      results' ← lift (r ← py_get response "response" (VList []);
                       py_extend results r);
      merge_pages api_method results' rest
  end.

Section Client.
Variable transport : list net_request -> net_request -> transport_result.
Variable self : KworkAPI.
Variable fuel : nat.

Section Models.
(** The record schema of an endpoint ([InboxMessage], [WantWorker],
    [DialogMessage]): it builds a record from a raw one or raises. *)
Context {A : Type}.
Variable model : value -> exn + A.

(** [_fetch_paginated_data] of [model], [api_method] and the keyword
    arguments [params]; [sched] is
    the order in which the requests for the pages 2..N are answered. *)
Definition _fetch_paginated_data (sched : list nat) (api_method : string)
    (params : gmap string value) : prog (list A) :=
  kwargs <~ pure (kwargs_page (VInt 1) params) ;;
  first_page_data <~
    run transport
      (request fuel self "post" (Some api_method) None 10 false kwargs) ;;
  paging <~ pure (py_get first_page_data "paging" VNone) ;;
  single <~ pure (if negb (truthy paging) then inr true
                  else pages ← py_get paging "pages" (VInt 1);
                       py_le_1 pages) ;;
  if (single : bool) then
    pure (r ← py_get first_page_data "response" (VList []);
          items ← py_iter r;
          map_model model items)
  else
    total_pages <~ pure (py_getitem paging "pages") ;;
    results <~ pure (py_get first_page_data "response" (VList [])) ;;
    pages <~ pure (py_range_2 total_pages) ;;
    other_pages_responses <~
      gather transport sched
        ((fun page =>
            request fuel self "post" (Some api_method) None 10 false
              (<["page" := VInt page]> params)) <$> pages) ;;
    results' <~
      run transport
        (merge_pages api_method results other_pages_responses) ;;
    pure (items ← py_iter results'; map_model model items).

(** The loop of [get_all_dialogs]; [rounds] bounds its iterations. *)
Fixpoint dialogs_loop (rounds : nat) (page : Z) (dialogs : list A)
    (token : value) : coro (list A) :=
  match rounds with
  | O => Diverge
  | S rounds' =>
      dialogs_page ←
        request fuel self "post" (Some "dialogs") None 10 false
          {[ "filter" := VStr "all"; "page" := VInt page;
             "token" := token ]};
      r ← lift (py_getitem dialogs_page "response");
      if negb (truthy r) then Ret dialogs
      else
        new ← lift (items ← py_iter r; map_model model items);
        dialogs_loop rounds' (page + 1) (dialogs ++ new) token
  end.

(** [get_all_dialogs()], with [model] for [DialogMessage]. *)
Definition get_all_dialogs (rounds : nat) : coro (list A) :=
  tok ← token fuel self;
  dialogs_loop rounds 1 [] tok.

(** [get_dialog_with_user(user_name)], with [model] for
    [InboxMessage]. *)
Definition get_dialog_with_user (sched : list nat) (user_name : value)
  : prog (list A) :=
  tok <~ run transport (token fuel self) ;;
  _fetch_paginated_data sched "inboxes"
    {[ "username" := user_name; "token" := tok ]}.

(** [",".join(str(c) for c in categories_ids)] *)
Definition str_of_id (c : Z + string) : string :=
  match c with
  | inl n => NilZero.string_of_int (Z.to_int n)
  | inr s => s
  end.

Fixpoint join_ids (ids : list (Z + string)) : string :=
  match ids with
  | [] => ""
  | [c] => str_of_id c
  | c :: rest => str_of_id c +:+ "," +:+ join_ids rest
  end.

(** [get_projects(categories_ids, ..., page, query)], with [model] for
    [WantWorker]. *)
Definition get_projects (sched : list nat)
    (categories_ids : list (Z + string))
    (price_from price_to hiring_from kworks_filter_from
       kworks_filter_to page query : value) : prog (list A) :=
  match categories_ids with
  | [] =>
      pure (inl (Exn KworkValidationException
                   "categories_ids cannot be empty" VNone None None))
  | _ =>
      tok <~ run transport (token fuel self) ;;
      let common_params : gmap string value :=
        {[ "categories" := VStr (join_ids categories_ids);
           "price_from" := price_from;
           "price_to" := price_to;
           "hiring_from" := hiring_from;
           "kworks_filter_from" := kworks_filter_from;
           "kworks_filter_to" := kworks_filter_to;
           "query" := query;
           "token" := tok ]} in
      if negb (is_none page) then
        raw_projects <~
          run transport
            (request fuel self "post" (Some "projects") None 10 false
               (<["page" := page]> common_params)) ;;
        pure (r ← py_get raw_projects "response" (VList []);
              items ← py_iter r;
              map_model model items)
      else
        _fetch_paginated_data sched "projects" common_params
  end.
End Models.

(** [send_message(user_id, text)] *)
Definition send_message (user_id text : value) : coro value :=
  if negb (truthy text) || negb (truthy user_id)
  then Raise (Exn KworkValidationException
                "user_id и text не могут быть пустыми" VNone None None)
  else
    Log (LogDebug "Отправка сообщения пользователю")
      (tok ← token fuel self;
       request fuel self "post" (Some "inboxCreate") None 10 false
         {[ "user_id" := user_id; "text" := text; "token" := tok ]}).
End Client.

(** ** What a call of [request] sends, logs and attaches to its errors *)

(** The request an attempt hands to the transport. *)
Definition request_sent (self : KworkAPI) (method : string)
    (api_method full_url : option string) (timeout : Z)
    (kwargs : gmap string value) : net_request :=
  NetRequest method (url_of api_method full_url) (api_key self)
    (drop_none kwargs) timeout.

(** The parameters as the diagnostics show them. *)
Definition logged_params (kwargs : gmap string value) : gmap string value :=
  redact "token" (redact "password" (drop_none kwargs)).

(** The debug line of line 77. *)
Definition request_logged (method : string) (api_method : option string)
    (kwargs : gmap string value) : log_entry :=
  LogRequest method api_method (logged_params kwargs).

(** The [request_info] of line 83. *)
Definition request_context (method : string)
    (api_method full_url : option string) (kwargs : gmap string value)
  : request_info :=
  RequestInfo method (url_of api_method full_url) (logged_params kwargs).

(** A response of content type JSON whose body decodes to the object [d]. *)
Definition json_answer (status : Z) (text : string) (d : gmap string value)
  : transport_result :=
  TransportResponse status "application/json" text (inr (VDict d)).

(** The body [d] reports a failure with the error message [m]: its success
    flag is false (or missing) and its error is the string [m]. *)
Definition failure_body (d : gmap string value) (m : string) : Prop :=
  truthy (default VNone (d !! "success")) = false
  /\ d !! "error" = Some (VStr m).

(** The error [request] builds for such a body. *)
Definition api_error (ri : request_info) (d : gmap string value)
    (m : string) : exn :=
  Exn (classify m) m (default VNone (d !! "error_code")) (Some ri) None.

(** The world after an attempt was made and answered with [status] and
    the body [d]. *)
Definition attempted (l : log_entry) (rq : net_request) (status : Z)
    (d : gmap string value) (w : world) : world :=
  with_log (LogResponse status (default VNone (d !! "success")))
    (with_request rq (with_log l w)).

(** ** Redaction of the diagnostics *)

(** A parameter map as a diagnostic may show it: [password] and [token],
    when present, hold the marker. *)
Definition redacted_params (p : gmap string value) : Prop :=
  forall key, key = "password" \/ key = "token" ->
  forall v, p !! key = Some v -> v = VStr "***".

(** An exception whose request context, and that of its causes, is
    redacted. *)
Fixpoint exn_redacted (e : exn) : Prop :=
  match e with
  | Exn _ _ _ info cause =>
      match info with
      | Some ri => redacted_params (ri_params ri)
      | None => True
      end
      /\ match cause with
         | Some c => exn_redacted c
         | None => True
         end
  end.

Definition log_redacted (l : log_entry) : Prop :=
  match l with
  | LogRequest _ _ p => redacted_params p
  | LogError _ (Some e) => exn_redacted e
  | _ => True
  end.

(** Whatever the transport answers and whatever the cache holds, every
    line the coroutine logs and the exception it may raise are redacted. *)
Inductive diagnostics_redacted {A : Type} : coro A -> Prop :=
| dr_ret a : diagnostics_redacted (Ret a)
| dr_raise e : exn_redacted e -> diagnostics_redacted (Raise e)
| dr_diverge : diagnostics_redacted Diverge
| dr_log l k :
    log_redacted l -> diagnostics_redacted k ->
    diagnostics_redacted (Log l k)
| dr_get_token k :
    (forall t, diagnostics_redacted (k t)) ->
    diagnostics_redacted (GetToken k)
| dr_set_token t k :
    diagnostics_redacted k -> diagnostics_redacted (SetToken t k)
| dr_await rq k :
    (forall r, diagnostics_redacted (k r)) ->
    diagnostics_redacted (Await rq k).

(** The answer [r] is a success carrying the records [items]. *)
Definition answers_with (r : transport_result) (items : list value) : Prop :=
  exists status text d,
    r = json_answer status text d
    /\ truthy (default VNone (d !! "success")) = true
    /\ d !! "response" = Some (VList items).

(** The request [get_all_dialogs] sends for the page [page]. *)
Definition dialogs_request (self : KworkAPI) (page : Z) (token : value)
  : net_request :=
  request_sent self "post" (Some "dialogs") None 10
    {[ "filter" := VStr "all"; "page" := VInt page; "token" := token ]}.

(** The service answers the request for the page [p + k] of the dialogs
    with the [k]-th of the given pages, whatever it was asked before. *)
Definition serves
    (transport : list net_request -> net_request -> transport_result)
    (self : KworkAPI) (tok : value) (p : Z) (pages : list (list value))
  : Prop :=
  forall hist k items,
    pages !! k = Some items ->
    answers_with (transport hist (dialogs_request self (p + Z.of_nat k) tok))
      items.

(** The request [_fetch_paginated_data] sends for the page [page]. *)
Definition page_request (self : KworkAPI) (api_method : string)
    (params : gmap string value) (page : Z) : net_request :=
  request_sent self "post" (Some api_method) None 10
    (<["page" := VInt page]> params).

(** The call of [request] for that page. *)
Definition page_call (fuel : nat) (self : KworkAPI) (api_method : string)
    (params : gmap string value) (page : Z) : coro value :=
  request fuel self "post" (Some api_method) None 10 false
    (<["page" := VInt page]> params).

(** The first page [first] carries no paging metadata, or a page count of
    at most one, and its records are [items]. *)
Definition single_page (first : value) (items : list value) : Prop :=
  exists d,
    first = VDict d
    /\ (truthy (default VNone (d !! "paging")) = false
        \/ exists dp n,
             d !! "paging" = Some (VDict dp)
             /\ default (VInt 1) (dp !! "pages") = VInt n
             /\ n <= 1)
    /\ default (VList []) (d !! "response") = VList items.

(** What the caller sees of a list of records built by the model. *)
Definition built {A : Type} (r : exn + list A) : outcome (list A) :=
  match r with
  | inl e => Raised e
  | inr records => Returned records
  end.

(** The [common_params] of [get_projects]. *)
Definition projects_params (categories_ids : list (Z + string))
    (price_from price_to hiring_from kworks_filter_from kworks_filter_to
       query token : value) : gmap string value :=
  {[ "categories" := VStr (join_ids categories_ids);
     "price_from" := price_from;
     "price_to" := price_to;
     "hiring_from" := hiring_from;
     "kworks_filter_from" := kworks_filter_from;
     "kworks_filter_to" := kworks_filter_to;
     "query" := query;
     "token" := token ]}.

(** ** What a coroutine sends and returns *)

(** Whatever the transport answers and whatever the cache holds, every
    request the coroutine hands to the transport satisfies [sent] and
    every value it returns satisfies [returned]. *)
Inductive leaves {A : Type} (sent : net_request -> Prop)
    (returned : A -> Prop) : coro A -> Prop :=
| lv_ret a : returned a -> leaves sent returned (Ret a)
| lv_raise e : leaves sent returned (Raise e)
| lv_diverge : leaves sent returned Diverge
| lv_log l k : leaves sent returned k -> leaves sent returned (Log l k)
| lv_get_token k :
    (forall t, leaves sent returned (k t)) ->
    leaves sent returned (GetToken k)
| lv_set_token t k :
    leaves sent returned k -> leaves sent returned (SetToken t k)
| lv_await rq k :
    sent rq -> (forall r, leaves sent returned (k r)) ->
    leaves sent returned (Await rq k).

(** A decoded object whose success flag is true. *)
Definition success_body (v : value) : Prop :=
  exists d, v = VDict d /\ truthy (default VNone (d !! "success")) = true.

(** A request that carries the key of the client as its authorization and
    no parameter whose value is [None]. *)
Definition well_formed_request (self : KworkAPI) (rq : net_request) : Prop :=
  rq_authorization rq = api_key self
  /\ forall k v, rq_params rq !! k = Some v -> is_none v = false.

(** What the body of the [try] makes of the answer of the transport
    (lines 87-106). *)
Definition answered (ri : request_info) (r : transport_result) : coro value :=
  match r with
  | TransportRaises cls msg => Raise (builtin_exn cls msg)
  | TransportResponse status content_type text decoded =>
      if negb (String.eqb content_type "application/json")
      then Raise (Exn KworkApiException
                    ("Недопустимый формат ответа: " +:+ text)
                    (VInt status) (Some ri) None)
      else
        match decoded with
        | inl m => Raise (builtin_exn JSONDecodeError m)
        | inr json_response => check_response ri status json_response
        end
  end.

(** The world after a request was handed to the transport. *)
Definition sent_from (l : log_entry) (rq : net_request) (w : world) : world :=
  with_request rq (with_log l w).

(** The request of the sign-in. *)
Definition sign_in_request (self : KworkAPI) : net_request :=
  request_sent self "post" (Some "signIn") None 10
    {[ "login" := VStr (login self);
       "password" := VStr (password self);
       "phone_last" := phone_last self ]}.

(** The world after the first attempt of a call was answered with an
    authentication failure and the cache was cleared. *)
Definition invalidated (l : log_entry) (rq : net_request) (status : Z)
    (d : gmap string value) (w : world) : world :=
  with_token VNone
    (with_log
       (LogWarning
          "Authentication error, attempting to refresh token and retry.")
       (attempted l rq status d w)).

(** ** Tasks that need one answer *)

(** A coroutine that ends with [r] without suspending and without looking
    at the cache. *)
Inductive immediate {A : Type} : coro A -> exn + A -> Prop :=
| im_ret a : immediate (Ret a) (inr a)
| im_raise e : immediate (Raise e) (inl e)
| im_log l k r : immediate k r -> immediate (Log l k) r.

(** A coroutine that sends one request and, with the answer [serve] gives
    to it, ends with [r]. *)
Inductive one_shot {A : Type} (serve : net_request -> transport_result)
  : coro A -> exn + A -> Prop :=
| os_log l k r : one_shot serve k r -> one_shot serve (Log l k) r
| os_await rq k r :
    immediate (k (serve rq)) r -> one_shot serve (Await rq k) r.

(** A task of a pool that is waiting for its one answer, or has ended. *)
Definition task_ok {A : Type} (serve : net_request -> transport_result)
    (c : coro A) (r : exn + A) : Prop :=
  (exists rq k, c = Await rq k /\ immediate (k (serve rq)) r)
  \/ task_result c = Some r.

(** The answer [r] makes an attempt raise an authentication error. *)
Definition auth_failure (r : transport_result) : Prop :=
  (exists msg, r = TransportRaises KworkAuthException msg)
  \/ (exists status text d m,
        r = json_answer status text d
        /\ failure_body d m
        /\ classify m = KworkAuthException).

(** The records of a page, and those of the pages gathered, in the order
    of the results; a result that is an exception has none. *)
Definition response_records (p : value) : list value :=
  match py_get p "response" (VList []) with
  | inr (VList l) => l
  | _ => []
  end.

Fixpoint gathered_records (rs : list (exn + value)) : list value :=
  match rs with
  | [] => []
  | inl _ :: rest => gathered_records rest
  | inr p :: rest => response_records p ++ gathered_records rest
  end.

(** A gathered result that is a page holds a list of records. *)
Definition lists_records (r : exn + value) : Prop :=
  match r with
  | inl _ => True
  | inr p => exists l, py_get p "response" (VList []) = inr (VList l)
  end.

(** The pages [_fetch_paginated_data] asks for after the first, when the
    first reports [n] pages. *)
Definition other_pages (n : Z) : list Z :=
  Z.of_nat <$> seq 2 (Z.to_nat (n - 1)).

(** The service answers every request for a page of the dialogs with a
    page that is not empty and whose records the model accepts. *)
Definition never_runs_dry {A : Type}
    (transport : list net_request -> net_request -> transport_result)
    (self : KworkAPI) (model : value -> exn + A) (tok : value) : Prop :=
  forall hist p,
    exists items records,
      items <> []
      /\ answers_with (transport hist (dialogs_request self p tok)) items
      /\ map_model model items = inr records.

(** ** The methods that read a field of the answer *)

Section Methods.
Variable self : KworkAPI.
Variable fuel : nat.
Context {A : Type}.
(** The record schema of the method ([Actor], [User], [Category],
    [Connects]). *)
Variable model : value -> exn + A.

(** [get_me()] *)
Definition get_me : coro A :=
  tok ← token fuel self;
  actor ← request fuel self "post" (Some "actor") None 10 false
            {[ "token" := tok ]};
  r ← lift (py_getitem actor "response");
  lift (model r).

(** [get_user(user_id)] *)
Definition get_user (user_id : value) : coro A :=
  tok ← token fuel self;
  user ← request fuel self "post" (Some "user") None 10 false
           {[ "id" := user_id; "token" := tok ]};
  r ← lift (py_getitem user "response");
  lift (model r).

(** [get_categories()] *)
Definition get_categories : coro (list A) :=
  tok ← token fuel self;
  categories ← request fuel self "post" (Some "categories") None 10 false
                 {[ "type" := VStr "1"; "token" := tok ]};
  r ← lift (py_getitem categories "response");
  lift (items ← py_iter r; map_model model items).

(** [get_connects()] *)
Definition get_connects : coro A :=
  tok ← token fuel self;
  projects ← request fuel self "post" (Some "projects") None 10 false
               {[ "categories" := VStr ""; "token" := tok ]};
  r ← lift (py_getitem projects "connects");
  lift (model r).
End Methods.

(** [_get_channel()] *)
Definition _get_channel (self : KworkAPI) (fuel : nat) : coro value :=
  tok ← token fuel self;
  channel ← request fuel self "post" (Some "getChannel") None 10 false
              {[ "token" := tok ]};
  r ← lift (py_getitem channel "response");
  lift (py_getitem r "channel").

(** ** The methods that return the answer as it is *)

Section PlainMethods.
Variable self : KworkAPI.
Variable fuel : nat.

(** [set_offline()] *)
Definition set_offline : coro value :=
  tok ← token fuel self;
  request fuel self "post" (Some "offline") None 10 false
    {[ "token" := tok ]}.

(** [set_online()]: the one method that names a full URL. *)
Definition set_online : coro value :=
  tok ← token fuel self;
  request fuel self "post" None (Some "https://kwork.ru/user_online") 10
    false {[ "token" := tok ]}.

(** [set_typing(recipient_id)] *)
Definition set_typing (recipient_id : value) : coro value :=
  tok ← token fuel self;
  request fuel self "post" (Some "typing") None 10 false
    {[ "recipientId" := recipient_id; "token" := tok ]}.

(** [get_worker_orders()] *)
Definition get_worker_orders : coro value :=
  tok ← token fuel self;
  request fuel self "post" (Some "workerOrders") None 10 false
    {[ "filter" := VStr "all"; "token" := tok ]}.

(** [get_payer_orders()] *)
Definition get_payer_orders : coro value :=
  tok ← token fuel self;
  request fuel self "post" (Some "payerOrders") None 10 false
    {[ "filter" := VStr "all"; "token" := tok ]}.

(** [get_notifications()] *)
Definition get_notifications : coro value :=
  tok ← token fuel self;
  request fuel self "post" (Some "notifications") None 10 false
    {[ "token" := tok ]}.

(** [delete_message(message_id)] *)
Definition delete_message (message_id : value) : coro value :=
  tok ← token fuel self;
  request fuel self "post" (Some "inboxDelete") None 10 false
    {[ "id" := message_id; "token" := tok ]}.

(** These methods, and [send_message] for the arguments given. *)
Definition plain_methods (recipient_id message_id user_id text : value)
  : list (coro value) :=
  [ set_offline; set_online; set_typing recipient_id; get_worker_orders;
    get_payer_orders; get_notifications; delete_message message_id;
    send_message self fuel user_id text ].
End PlainMethods.

(** The call [c], run in [w], returns the body [d] after one request, which
    carries the token cached in [w] and the key of the client. *)
Definition one_authorized_request
    (transport : list net_request -> net_request -> transport_result)
    (self : KworkAPI) (w : world) (d : gmap string value) (c : coro value)
  : Prop :=
  exists w' rq,
    run transport c w = (w', Returned (VDict d))
    /\ w_trace w' = w_trace w ++ [rq]
    /\ rq_params rq !! "token" = Some (w_token w)
    /\ rq_authorization rq = api_key self
    /\ w_token w' = w_token w.

(** ** Scenarios

    A client, two worlds and a few remote services, for the concrete runs
    that accompany the properties. *)

Definition me : KworkAPI :=
  {| login := "worker"; password := "hunter2"; phone_last := VNone;
     api_key := DEFAULT_API_KEY |}.

(** No token cached, nothing sent, nothing logged. *)
Definition fresh : world := World VNone [] [].

(** A token is cached. *)
Definition signed_in : world := World (VStr "T1") [] [].

(** A JSON answer reporting success, with the [fields] given. *)
Definition ok_response (fields : gmap string value) : transport_result :=
  TransportResponse 200 "application/json" ""
    (inr (VDict (<["success" := VBool true]> fields))).

(** A JSON answer reporting a failure with the message [m]. *)
Definition failure (m : string) : transport_result :=
  TransportResponse 200 "application/json" ""
    (inr (VDict {[ "success" := VBool false; "error" := VStr m ]})).

(** The answer to a sign-in: the token [t]. *)
Definition sign_in_ok (t : string) : transport_result :=
  ok_response {[ "response" := VDict {[ "token" := VStr t ]} ]}.

Definition is_sign_in (rq : net_request) : bool :=
  String.eqb (rq_url rq) "https://api.kwork.ru/signIn".

(** A service that is never reached. *)
Definition unreachable : list net_request -> net_request -> transport_result :=
  fun _ _ => TransportRaises ClientError "Cannot connect to host".

(** The records a model keeps as they are. *)
Definition raw_record (item : value) : exn + value := inr item.

(** A service that reports a rate limit to every request. *)
Definition rate_limited : list net_request -> net_request -> transport_result :=
  fun _ _ => failure "Rate limit exceeded".

(** A service that signs in with the token T2 and rejects the token of
    every other request. *)
Definition rejecting : list net_request -> net_request -> transport_result :=
  fun _ rq => if is_sign_in rq then sign_in_ok "T2" else failure "Invalid token".

(** The page number a request asks for. *)
Definition page_of (rq : net_request) : Z :=
  match rq_params rq !! "page" with
  | Some (VInt n) => n
  | _ => 0
  end.

Definition record (n : Z) : value := VDict {[ "id" := VInt n ]}.

(** A dialog listing of three, then two, then no records. *)
Definition dialog_service : list net_request -> net_request -> transport_result :=
  fun _ rq =>
    if is_sign_in rq then sign_in_ok "T2"
    else
      match page_of rq with
      | 1 => ok_response {[ "response" := VList [record 1; record 2; record 3] ]}
      | 2 => ok_response {[ "response" := VList [record 4; record 5] ]}
      | _ => ok_response {[ "response" := VList [] ]}
      end.

(** The token a request carries. *)
Definition token_of (rq : net_request) : value :=
  default VNone (rq_params rq !! "token").

(** A service for which the token T1 has expired: it signs in with T2,
    accepts T2, and answers one page of one record, without paging
    metadata. *)
Definition expiring : list net_request -> net_request -> transport_result :=
  fun _ rq =>
    if is_sign_in rq then sign_in_ok "T2"
    else
      match token_of rq with
      | VStr "T2" => ok_response {[ "response" := VList [record 1] ]}
      | _ => failure "Invalid token"
      end.

(** A service of five pages, the third of which cannot be fetched; the
    page [n] holds the records [10 n] and [10 n + 1]. *)
Definition five_pages : list net_request -> net_request -> transport_result :=
  fun _ rq =>
    if is_sign_in rq then sign_in_ok "T2"
    else
      match page_of rq with
      | 3 => TransportRaises ClientError "Connection reset by peer"
      | n =>
          ok_response
            {[ "paging" := VDict {[ "pages" := VInt 5 ]};
               "response" := VList [record (10 * n); record (10 * n + 1)] ]}
      end.

(** The keyword arguments of a fetch of the messages exchanged with a
    user, with the cached token T1. *)
Definition inbox_params : gmap string value :=
  {[ "username" := VStr "alice"; "token" := VStr "T1" ]}.

(** A service whose answers never arrive in time. *)
Definition timing_out : list net_request -> net_request -> transport_result :=
  fun _ _ => TransportRaises OtherError "TimeoutError".

(** A gateway that answers with a page of HTML. *)
Definition gateway : list net_request -> net_request -> transport_result :=
  fun _ _ =>
    TransportResponse 502 "text/html" "<html>Bad Gateway</html>"
      (inl "Expecting value").

(** A service whose JSON is cut short. *)
Definition garbled : list net_request -> net_request -> transport_result :=
  fun _ _ =>
    TransportResponse 200 "application/json" "{"
      (inl "Expecting property name").

(** A service that reports failures by a code alone. *)
Definition terse : list net_request -> net_request -> transport_result :=
  fun _ _ =>
    json_answer 200 ""
      {[ "success" := VBool false; "error_code" := VInt 17 ]}.

(** A service that answers with a JSON array. *)
Definition listing : list net_request -> net_request -> transport_result :=
  fun _ _ =>
    TransportResponse 200 "application/json" "[]" (inr (VList [])).

(** The keyword arguments of a call that carries the cached token T1. *)
Definition with_t1 : gmap string value := {[ "token" := VStr "T1" ]}.

(** A service whose sign-in succeeds without handing out a token. *)
Definition tokenless : list net_request -> net_request -> transport_result :=
  fun _ _ => ok_response {[ "response" := VDict ∅ ]}.

(** A service that rejects the token of every request and refuses the
    connection of the sign-in. *)
Definition locked_out : list net_request -> net_request -> transport_result :=
  fun hist rq =>
    if is_sign_in rq then TransportRaises ClientError "Connection refused"
    else failure "Invalid token".

(** A service whose page 3 cannot be fetched, as a function of the request
    alone. *)
Definition five_pages_answer (rq : net_request) : transport_result :=
  five_pages [] rq.

(** A dialog listing that ignores the page it is asked for. *)
Definition same_page : list net_request -> net_request -> transport_result :=
  fun _ rq =>
    if is_sign_in rq then sign_in_ok "T2"
    else ok_response {[ "response" := VList [record 1] ]}.

(** A dialog listing whose second page cannot be fetched. *)
Definition broken_listing
  : list net_request -> net_request -> transport_result :=
  fun _ rq =>
    match page_of rq with
    | 1 => ok_response {[ "response" := VList [record 1; record 2] ]}
    | _ => TransportRaises ClientError "Connection reset by peer"
    end.

(** A service that reports success and nothing else. *)
Definition bare : list net_request -> net_request -> transport_result :=
  fun _ _ => ok_response ∅.

(** * Properties *)

(** ** Running binds and handlers *)

Lemma run_bind {A B : Type} transport (c : coro A) (f : A -> coro B) w :
  run transport (c ≫= f) w
  = prog_bind (run transport c) (fun a => run transport (f a)) w.
Proof.
  unfold mbind, coro_mbind, prog_bind.
  revert w; induction c as [a|e| |l k IH|k IH|t k IH|rq k IH]; intros w;
    simpl; auto.
Qed.

Lemma run_catch {A : Type} transport (c : coro A) (h : exn -> coro A) w :
  run transport (catch c h) w
  = match run transport c w with
    | (w', Raised e) => run transport (h e) w'
    | r => r
    end.
Proof.
  revert w; induction c as [a|e| |l k IH|k IH|t k IH|rq k IH]; intros w;
    simpl; auto.
Qed.

Lemma run_lift {A : Type} transport (r : exn + A) w :
  run transport (lift r) w = pure r w.
Proof. destruct r; reflexivity. Qed.

Lemma request_unfold fuel self method api_method full_url timeout retried
    kwargs :
  request (S fuel) self method api_method full_url timeout retried kwargs
  = request_body self (request fuel self)
      method api_method full_url timeout retried kwargs.
Proof. reflexivity. Qed.

(** World projections of the updates. *)
Lemma trace_with_log l w : w_trace (with_log l w) = w_trace w.
Proof. reflexivity. Qed.
Lemma trace_with_token t w : w_trace (with_token t w) = w_trace w.
Proof. reflexivity. Qed.
Lemma trace_with_request rq w :
  w_trace (with_request rq w) = w_trace w ++ [rq].
Proof. reflexivity. Qed.
Lemma token_with_log l w : w_token (with_log l w) = w_token w.
Proof. reflexivity. Qed.
Lemma token_with_request rq w : w_token (with_request rq w) = w_token w.
Proof. reflexivity. Qed.
Lemma token_with_token t w : w_token (with_token t w) = t.
Proof. reflexivity. Qed.

Create Rewrite HintDb world.
Hint Rewrite trace_with_log trace_with_token trace_with_request
  token_with_log token_with_request token_with_token : world.

(** ** Arguments are checked before anything is sent *)

(** C7 (as it stands in the specification, refuted): a call without
    endpoint name and without URL does not fail with the validation error;
    the exception raised is a [KworkApiException]. *)
Lemma request_without_target_is_not_validation_error :
  exists e,
    (run unreachable (request 1 me "post" None None 10 false ∅) fresh).2
    = Raised e
    /\ exn_class e = KworkApiException
    /\ exn_class e <> KworkValidationException.
Proof. eexists; split; [reflexivity | split; [reflexivity | discriminate]]. Qed.

Lemma run_request_no_target
    transport self fuel method api_method full_url timeout retried kwargs w :
  opt_truthy api_method || opt_truthy full_url = false ->
  run transport
    (request (S fuel) self method api_method full_url timeout retried kwargs)
    w
  = (with_log (request_logged method api_method kwargs) w,
     Raised (Exn KworkApiException
               "Необходимо указать api_method или full_url"
               VNone None None)).
Proof.
  intros H. rewrite request_unfold. unfold request_body.
  rewrite H. reflexivity.
Qed.

(** C7 (amended): a call of [request] that is given neither an endpoint
    name nor a URL raises [KworkApiException], the class of the protocol
    and generic API errors, and it does so before the transport is called:
    the world it leaves differs from the one it found by the debug line
    alone. *)
Theorem request_without_target_raises_api_exception
    transport self fuel method api_method full_url timeout retried kwargs w :
  opt_truthy api_method = false ->
  opt_truthy full_url = false ->
  run transport
    (request (S fuel) self method api_method full_url timeout retried kwargs)
    w
  = (with_log
       (LogRequest method api_method
          (redact "token" (redact "password" (drop_none kwargs)))) w,
     Raised (Exn KworkApiException
               "Необходимо указать api_method или full_url"
               VNone None None)).
Proof.
  intros Ha Hu. rewrite request_unfold. unfold request_body.
  rewrite Ha, Hu. reflexivity.
Qed.

Lemma request_without_target_raises_api_exception_witness :
  opt_truthy None = false /\ opt_truthy (Some "") = false
  /\ run unreachable (request 1 me "get" None (Some "") 10 false
                        {[ "token" := VStr "T1" ]}) signed_in
     = (with_log
          (LogRequest "get" None
             (redact "token" (redact "password"
                (drop_none {[ "token" := VStr "T1" ]})))) signed_in,
        Raised (Exn KworkApiException
                  "Необходимо указать api_method или full_url"
                  VNone None None)).
Proof.
  split; [reflexivity | split; [reflexivity |]].
  apply (request_without_target_raises_api_exception
           unreachable me 0 "get" None (Some "") 10 false
           {[ "token" := VStr "T1" ]} signed_in); reflexivity.
Defined.

(** C9: [send_message] with an empty text or without a recipient id, and
    [get_projects] with an empty list of categories, raise
    [KworkValidationException] and leave the world as they found it: no
    request is sent, none for a sign-in either, and the token cache is not
    touched. *)
Theorem validation_precedes_every_network_call
    {A : Type} transport self fuel (model : value -> exn + A) sched
    (user_id text price_from price_to hiring_from kworks_filter_from
       kworks_filter_to page query : value) w :
  truthy text = false \/ truthy user_id = false ->
  (exists e,
      run transport (send_message self fuel user_id text) w = (w, Raised e)
      /\ exn_class e = KworkValidationException)
  /\ (exists e,
        get_projects transport self fuel model sched [] price_from price_to
          hiring_from kworks_filter_from kworks_filter_to page query w
        = (w, Raised e)
        /\ exn_class e = KworkValidationException).
Proof.
  intros H. split.
  - unfold send_message.
    assert (negb (truthy text) || negb (truthy user_id) = true) as ->
      by (destruct H as [-> | ->]; simpl; auto using orb_true_r).
    eexists; split; reflexivity.
  - eexists; split; reflexivity.
Qed.

Lemma validation_precedes_every_network_call_witness :
  (truthy (VStr "") = false \/ truthy (VInt 7) = false)
  /\ (exists e,
        run unreachable (send_message me 3 (VInt 7) (VStr "")) fresh
        = (fresh, Raised e)
        /\ exn_class e = KworkValidationException)
  /\ (exists e,
        get_projects unreachable me 3 raw_record [] [] VNone VNone VNone
          VNone VNone (VInt 1) VNone fresh
        = (fresh, Raised e)
        /\ exn_class e = KworkValidationException).
Proof.
  split; [left; reflexivity |].
  apply (validation_precedes_every_network_call
           unreachable me 3 raw_record [] (VInt 7) (VStr "")).
  left; reflexivity.
Defined.

(** ** The classification of error messages *)

Lemma append_cons c s t : String c s +:+ t = String c (s +:+ t).
Proof. reflexivity. Qed.

Lemma append_empty t : "" +:+ t = t.
Proof. reflexivity. Qed.

Lemma prefix_spec needle hay :
  String.prefix needle hay = true <-> exists post, hay = needle +:+ post.
Proof.
  revert hay; induction needle as [|a needle IH]; intros hay.
  - destruct hay; simpl; split; eauto.
  - destruct hay as [|b hay]; simpl.
    + split; [discriminate | intros [post H]; discriminate].
    + destruct (ascii_dec a b) as [->|Hne].
      * rewrite IH. split; intros [post H]; exists post;
          rewrite append_cons in *; congruence.
      * split; [discriminate |].
        intros [post H]; rewrite append_cons in H; congruence.
Qed.

Lemma str_in_cons needle c hay :
  str_in needle (String c hay)
  = String.prefix needle (String c hay) || str_in needle hay.
Proof. reflexivity. Qed.

Lemma str_in_empty needle :
  str_in needle "" = String.prefix needle "" || false.
Proof. reflexivity. Qed.

Lemma str_in_spec needle hay :
  str_in needle hay = true
  <-> exists pre post, hay = pre +:+ needle +:+ post.
Proof.
  induction hay as [|c hay IH].
  - rewrite str_in_empty, orb_false_r, prefix_spec. split.
    + intros [post H]. exists "", post. exact H.
    + intros [pre [post H]]. destruct pre; [eauto | discriminate].
  - rewrite str_in_cons, orb_true_iff, prefix_spec, IH. split.
    + intros [[post H] | [pre [post H]]].
      * exists "", post. exact H.
      * exists (String c pre), post. rewrite append_cons. congruence.
    + intros [pre [post H]]. destruct pre as [|c' pre].
      * left. eauto.
      * right. exists pre, post. rewrite append_cons in H. congruence.
Qed.

Lemma is_byte_spec n c :
  (n < 256)%nat -> is_byte n c = true <-> c = ascii_of_nat n.
Proof.
  intros Hn. unfold is_byte. rewrite Nat.eqb_eq. split.
  - intros <-. symmetry. apply ascii_nat_embedding.
  - intros ->. apply nat_ascii_embedding. exact Hn.
Qed.

Lemma after_kelvin_spec s t :
  after_kelvin s = Some t <-> s = kelvin_sign +:+ t.
Proof.
  unfold kelvin_sign. rewrite !append_cons, append_empty.
  destruct s as [|c [|c1 [|c2 s]]]; simpl;
    try (split; [discriminate | intros H; discriminate H]).
  destruct (is_byte 226 c) eqn:H0; simpl.
  2:{ split; [discriminate |]. intros H. injection H as -> _.
      discriminate H0. }
  destruct (is_byte 132 c1) eqn:H1; simpl.
  2:{ split; [discriminate |]. intros H. injection H as _ -> _.
      discriminate H1. }
  destruct (is_byte 170 c2) eqn:H2; simpl.
  2:{ split; [discriminate |]. intros H. injection H as _ _ -> _.
      discriminate H2. }
  apply is_byte_spec in H0, H1, H2; try lia. subst.
  split; intros H; injection H as ->; reflexivity.
Qed.

(** The three cases of [lower] on a string that is not empty. *)
Lemma lower_cases c t :
  (exists t1, String c t = capital_i_with_dot +:+ t1
              /\ lower (String c t)
                 = String "i" (combining_dot_above +:+ lower t1))
  \/ (exists t2, after_kelvin (String c t) = Some t2
                 /\ lower (String c t) = String "k" (lower t2))
  \/ (after_kelvin (String c t) = None
      /\ lower (String c t) = String (lower_ascii c) (lower t)).
Proof.
  destruct t as [|c1 t1]; [right; right; split; reflexivity |].
  cbn [lower after_kelvin].
  destruct (is_byte 196 c && is_byte 176 c1) eqn:Hi.
  { left. apply andb_true_iff in Hi as [H0 H1].
    apply is_byte_spec in H0, H1; try lia. subst.
    exists t1. split; reflexivity. }
  right. destruct t1 as [|c2 t2]; [right; split; reflexivity |].
  destruct (is_byte 226 c && is_byte 132 c1 && is_byte 170 c2).
  - left. exists t2. split; reflexivity.
  - right. split; reflexivity.
Qed.

Lemma ci_charb_spec c n : ci_charb c n = true <-> ci_char c n.
Proof.
  unfold ci_charb, ci_char.
  rewrite orb_true_iff, !andb_true_iff, Ascii.eqb_eq, !Nat.leb_le, Nat.eqb_eq.
  tauto.
Qed.

Lemma letter_spec n :
  letter n = true <-> (97 <= nat_of_ascii n <= 122)%nat.
Proof. unfold letter. rewrite andb_true_iff, !Nat.leb_le. tauto. Qed.

Lemma lower_ascii_spec c n :
  letter n = true -> lower_ascii c = n <-> ci_char c n.
Proof.
  intros Hn. apply letter_spec in Hn.
  unfold lower_ascii, ci_char.
  pose proof (nat_ascii_bounded c) as Hc.
  destruct ((65 <=? nat_of_ascii c) && (nat_of_ascii c <=? 90))%nat eqn:Hup.
  - apply andb_true_iff in Hup as [H1 H2].
    apply Nat.leb_le in H1, H2. split.
    + intros <-. right.
      rewrite nat_ascii_embedding by lia. lia.
    + intros [-> | [_ H]].
      * lia.
      * rewrite H. apply ascii_nat_embedding.
  - split; [auto |].
    intros [-> | [Hr H]]; [reflexivity |].
    rewrite andb_false_iff, !Nat.leb_gt in Hup. lia.
Qed.

Lemma ci_charb_high c n :
  letter n = true -> (128 <= nat_of_ascii c)%nat -> ci_charb c n = false.
Proof.
  intros Hn Hc. apply letter_spec in Hn.
  destruct (ci_charb c n) eqn:H; [| reflexivity].
  apply ci_charb_spec in H as [-> | [_ H]]; lia.
Qed.

Lemma prefix_cons n t c m :
  String.prefix (String n t) (String c m)
  = (if ascii_dec n c then String.prefix t m else false).
Proof. reflexivity. Qed.

(** A needle of letters does not start at a byte of a character outside
    ASCII. *)
Lemma prefix_high n t c m :
  letter n = true -> (128 <= nat_of_ascii c)%nat ->
  String.prefix (String n t) (String c m) = false.
Proof.
  intros Hn Hc. apply letter_spec in Hn. rewrite prefix_cons.
  destruct (ascii_dec n c) as [-> |]; [lia | reflexivity].
Qed.

Lemma prefix_lower_ascii n t c m :
  letter n = true ->
  String.prefix (String n t) (String (lower_ascii c) m)
  = ci_charb c n && String.prefix t m.
Proof.
  intros Hn. rewrite prefix_cons.
  destruct (ascii_dec n (lower_ascii c)) as [E | E].
  - symmetry in E. apply (lower_ascii_spec c n Hn), ci_charb_spec in E.
    rewrite E. reflexivity.
  - destruct (ci_charb c n) eqn:H; [| reflexivity].
    apply ci_charb_spec, (lower_ascii_spec c n Hn) in H. congruence.
Qed.

Lemma after_kelvin_head c m :
  is_byte 226 c = false -> after_kelvin (String c m) = None.
Proof.
  intros H. destruct m as [|c1 [|c2 m]]; try reflexivity.
  simpl. rewrite H. reflexivity.
Qed.

Lemma starts_ci_high n t c m :
  letter n = true -> (128 <= nat_of_ascii c)%nat -> is_byte 226 c = false ->
  starts_ci (String n t) (String c m) = false.
Proof.
  intros Hn Hc Hk. cbn [starts_ci].
  rewrite (ci_charb_high c n Hn Hc), (after_kelvin_head c m Hk).
  rewrite andb_false_r. reflexivity.
Qed.

(** On a needle of letters that does not end in [i], the prefix test on
    the lowered string is the test [starts_ci] on the string itself. *)
Lemma prefix_lower needle :
  letters needle = true -> no_final_i needle = true ->
  forall s, String.prefix needle (lower s) = starts_ci needle s.
Proof.
  induction needle as [|n t IH]; intros Hl Hi s.
  - destruct (lower s); reflexivity.
  - cbn [letters] in Hl. apply andb_true_iff in Hl as [Hn Hl].
    assert (no_final_i t = true) as Hi'.
    { destruct t; [reflexivity | exact Hi]. }
    specialize (IH Hl Hi').
    destruct s as [|c m].
    { cbn [lower starts_ci after_kelvin]. rewrite andb_false_r. reflexivity. }
    destruct (lower_cases c m)
      as [(t1 & E & L) | [(t2 & E & L) | (E & L)]]; rewrite L.
    + rewrite E. unfold capital_i_with_dot, combining_dot_above.
      rewrite !append_cons, !append_empty.
      rewrite starts_ci_high by (try exact Hn; vm_compute; try lia; reflexivity).
      rewrite prefix_cons. destruct (ascii_dec n "i") as [-> |]; [| reflexivity].
      destruct t as [|n' t']; [discriminate Hi |].
      cbn [letters] in Hl. apply andb_true_iff in Hl as [Hn' _].
      apply prefix_high; [exact Hn' | vm_compute; lia].
    + cbn [starts_ci]. rewrite E, prefix_cons, IH.
      apply after_kelvin_spec in E. unfold kelvin_sign in E.
      rewrite !append_cons, append_empty in E. injection E as -> ->.
      rewrite ci_charb_high by (try exact Hn; vm_compute; lia).
      simpl.
      destruct (ascii_dec n "k") as [-> |Hne]; [reflexivity |].
      destruct (Ascii.eqb n "k") eqn:Hk; [| reflexivity].
      apply Ascii.eqb_eq in Hk. contradiction.
    + cbn [starts_ci]. rewrite E, andb_false_r, orb_false_r, <- IH.
      apply prefix_lower_ascii. exact Hn.
Qed.

Lemma occurs_ci_cons needle c s :
  occurs_ci needle (String c s)
  = starts_ci needle (String c s) || occurs_ci needle s.
Proof. reflexivity. Qed.

(** The test of the code on the lowered message is the test [occurs_ci]
    on the message. *)
Lemma str_in_lower n t s :
  letters (String n t) = true -> no_final_i (String n t) = true ->
  str_in (String n t) (lower s) = occurs_ci (String n t) s.
Proof.
  intros Hl Hi.
  pose proof (prefix_lower _ Hl Hi) as Hp.
  cbn [letters] in Hl. apply andb_true_iff in Hl as [Hn _].
  remember (String.length s) as k eqn:Hk.
  assert (String.length s <= k)%nat as Hle by lia. clear Hk.
  revert s Hle. induction k as [|k IH]; intros s Hle.
  - destruct s; [| simpl in Hle; lia].
    cbn [lower occurs_ci]. rewrite str_in_empty, <- Hp. reflexivity.
  - destruct s as [|c m].
    { cbn [lower occurs_ci]. rewrite str_in_empty, <- Hp. reflexivity. }
    rewrite occurs_ci_cons, <- Hp.
    destruct (lower_cases c m)
      as [(t1 & E & L) | [(t2 & E & L) | (E & L)]].
    + rewrite L at 1. rewrite str_in_cons, <- L.
      unfold capital_i_with_dot in E. unfold combining_dot_above.
      rewrite !append_cons, !append_empty in *. injection E as -> ->.
      rewrite !str_in_cons, occurs_ci_cons.
      rewrite !prefix_high by (try exact Hn; vm_compute; lia).
      rewrite starts_ci_high
        by (try exact Hn; vm_compute; try lia; reflexivity).
      rewrite IH by (simpl in Hle; lia). reflexivity.
    + rewrite L at 1. rewrite str_in_cons, <- L.
      apply after_kelvin_spec in E. unfold kelvin_sign in E.
      rewrite !append_cons, append_empty in E. injection E as -> ->.
      rewrite !occurs_ci_cons.
      rewrite !(starts_ci_high n t (ascii_of_nat 132)),
              !(starts_ci_high n t (ascii_of_nat 170))
        by (try exact Hn; vm_compute; try lia; reflexivity).
      rewrite IH by (simpl in Hle; lia). reflexivity.
    + rewrite L at 1. rewrite str_in_cons, <- L.
      rewrite IH by (simpl in Hle; lia). reflexivity.
Qed.

Lemma starts_ci_spec needle s :
  starts_ci needle s = true
  <-> exists mid post, s = mid +:+ post /\ ci_spells mid needle.
Proof.
  revert s; induction needle as [|n t IH]; intros s.
  - split; [| reflexivity]. intros _. exists "", s. split; reflexivity.
  - cbn [starts_ci ci_spells].
    rewrite orb_true_iff, andb_true_iff, Ascii.eqb_eq. split.
    + intros [H | [-> H]].
      * destruct s as [|c m]; [discriminate |].
        apply andb_true_iff in H as [Hc H].
        apply ci_charb_spec in Hc. apply IH in H as (mid & post & -> & H).
        exists (String c mid), post. split; [reflexivity |].
        left. exists c, mid. auto.
      * destruct (after_kelvin s) as [m|] eqn:E; [| discriminate].
        apply after_kelvin_spec in E.
        apply IH in H as (mid & post & -> & H).
        exists (kelvin_sign +:+ mid), post. split; [exact E |].
        right. split; [reflexivity |]. exists mid. auto.
    + intros (mid & post & -> & [(c & m & -> & Hc & H) | (-> & m & -> & H)]).
      * left. rewrite append_cons. apply andb_true_iff. split.
        -- apply ci_charb_spec. exact Hc.
        -- apply IH. exists m, post. auto.
      * right. split; [reflexivity |].
        assert (after_kelvin ((kelvin_sign +:+ m) +:+ post)
                = Some (m +:+ post)) as ->.
        { apply after_kelvin_spec. reflexivity. }
        apply IH. exists m, post. auto.
Qed.

Lemma occurs_ci_spec needle s :
  occurs_ci needle s = true <-> contains_ci needle s.
Proof.
  unfold contains_ci. induction s as [|c s IH].
  - cbn [occurs_ci]. rewrite orb_false_r, starts_ci_spec. split.
    + intros (mid & post & E & H). exists "", mid, post. auto.
    + intros (pre & mid & post & E & H).
      destruct pre; [| discriminate]. exists mid, post. auto.
  - rewrite occurs_ci_cons, orb_true_iff, starts_ci_spec, IH. split.
    + intros [(mid & post & E & H) | (pre & mid & post & E & H)].
      * exists "", mid, post. auto.
      * exists (String c pre), mid, post. rewrite append_cons, E. auto.
    + intros (pre & mid & post & E & H). destruct pre as [|c' pre].
      * left. exists mid, post. auto.
      * right. rewrite append_cons in E. injection E as -> ->.
        exists pre, mid, post. auto.
Qed.

(** The test of the code, [needle in msg.lower()], is the containment up
    to case of the specification. *)
Lemma str_in_lower_spec n t msg :
  letters (String n t) = true -> no_final_i (String n t) = true ->
  str_in (String n t) (lower msg) = true <-> contains_ci (String n t) msg.
Proof.
  intros Hl Hi. rewrite (str_in_lower n t msg Hl Hi). apply occurs_ci_spec.
Qed.

Lemma str_in_lower_false n t msg :
  letters (String n t) = true -> no_final_i (String n t) = true ->
  str_in (String n t) (lower msg) = false <-> ~ contains_ci (String n t) msg.
Proof.
  intros Hl Hi. rewrite <- (str_in_lower_spec n t msg Hl Hi).
  destruct (str_in (String n t) (lower msg)); split; auto; try discriminate.
  intros H; exfalso; auto.
Qed.

(** A message with "limit" in it, in any case, is a rate-limit error. *)
Lemma classify_limit msg :
  contains_ci "limit" msg -> classify msg = KworkRateLimitException.
Proof.
  intros H. unfold classify.
  apply str_in_lower_spec in H; [| reflexivity ..].
  rewrite H. reflexivity.
Qed.

(** The Kelvin sign is a capital of [k] for [str.lower]: a message that
    writes "token" with it is an authentication error. *)
Example classify_kelvin_sign :
  classify ("TO" +:+ kelvin_sign +:+ "EN expired") = KworkAuthException
  /\ contains_ci "token" ("TO" +:+ kelvin_sign +:+ "EN expired").
Proof. split; [reflexivity | apply occurs_ci_spec; reflexivity]. Qed.

(** The capital I with dot above is not a capital of [i] for [str.lower]:
    its lower case carries the combining dot. *)
Example classify_capital_i_with_dot :
  classify ("L" +:+ capital_i_with_dot +:+ "MIT reached") = KworkApiException
  /\ ~ contains_ci "limit" ("L" +:+ capital_i_with_dot +:+ "MIT reached").
Proof.
  split; [reflexivity |]. intros H. apply occurs_ci_spec in H. discriminate H.
Qed.

(** C5: the class of the error raised for a failure message depends on the
    message alone.  A message that contains "limit", in any case, is a
    rate-limit error, whatever else it contains; otherwise a message that
    contains "auth" or "token" is an authentication error; any other
    message is a generic API error.  [request] raises the error of that
    class for a body whose success flag is false. *)
Theorem error_classification (msg : string) :
  (contains_ci "limit" msg -> classify msg = KworkRateLimitException)
  /\ (~ contains_ci "limit" msg ->
      contains_ci "auth" msg \/ contains_ci "token" msg ->
      classify msg = KworkAuthException)
  /\ (~ contains_ci "limit" msg ->
      ~ contains_ci "auth" msg ->
      ~ contains_ci "token" msg ->
      classify msg = KworkApiException)
  /\ (forall ri status (d : gmap string value),
        truthy (default VNone (d !! "success")) = false ->
        d !! "error" = Some (VStr msg) ->
        check_response ri status (VDict d)
        = Log (LogResponse status (default VNone (d !! "success")))
            (Raise (Exn (classify msg) msg
                      (default VNone (d !! "error_code")) (Some ri) None))).
Proof.
  unfold classify. repeat split.
  - intros H. apply str_in_lower_spec in H; [| reflexivity ..].
    rewrite H. reflexivity.
  - intros Hl Hat. apply str_in_lower_false in Hl; [| reflexivity ..].
    rewrite Hl.
    destruct Hat as [H | H]; apply str_in_lower_spec in H;
      try reflexivity; rewrite H, ?orb_true_r; reflexivity.
  - intros Hl Ha Ht.
    apply str_in_lower_false in Hl, Ha, Ht; try reflexivity.
    rewrite Hl, Ha, Ht. reflexivity.
  - intros ri status d Hs He. unfold check_response. simpl.
    rewrite Hs, He. reflexivity.
Qed.

Lemma error_classification_witness :
  contains_ci "limit" "Rate LIMIT: token expired"
  /\ contains_ci "token" "Rate LIMIT: token expired"
  /\ classify "Rate LIMIT: token expired" = KworkRateLimitException.
Proof.
  assert (contains_ci "limit" "Rate LIMIT: token expired") as H.
  { apply occurs_ci_spec. reflexivity. }
  split; [exact H | split].
  - apply occurs_ci_spec. reflexivity.
  - exact (proj1 (error_classification "Rate LIMIT: token expired") H).
Defined.

(** ** One attempt of [request] *)

Section Attempt.
Variable transport : list net_request -> net_request -> transport_result.
Variable self : KworkAPI.
Variables (method : string) (api_method full_url : option string).
Variables (timeout : Z) (kwargs : gmap string value).
Hypothesis target : opt_truthy api_method || opt_truthy full_url = true.

Let rq := request_sent self method api_method full_url timeout kwargs.
Let ri := request_context method api_method full_url kwargs.
Let l := request_logged method api_method kwargs.

(** A successful answer is returned as it is, after one call of the
    transport. *)
Lemma run_request_success fuel retried w status text d :
  transport (w_trace w) rq = json_answer status text d ->
  truthy (default VNone (d !! "success")) = true ->
  run transport
    (request (S fuel) self method api_method full_url timeout retried
       kwargs) w
  = (attempted l rq status d w, Returned (VDict d)).
Proof.
  intros Hr Hs. rewrite request_unfold. unfold request_body.
  rewrite target. simpl. rewrite run_catch. simpl.
  unfold rq, request_sent in Hr. rewrite Hr. unfold json_answer. simpl.
  rewrite Hs. reflexivity.
Qed.

(** A reported failure reaches the [except] clauses as the error of the
    class of its message. *)
Lemma run_request_failure fuel retried w status text d m :
  transport (w_trace w) rq = json_answer status text d ->
  failure_body d m ->
  run transport
    (request (S fuel) self method api_method full_url timeout retried
       kwargs) w
  = run transport
      (handlers self (request fuel self) method api_method full_url
         timeout retried (drop_none kwargs) ri (api_error ri d m))
      (attempted l rq status d w).
Proof.
  intros Hr [Hs He]. rewrite request_unfold. unfold request_body.
  rewrite target. simpl. rewrite run_catch. simpl.
  unfold rq, request_sent in Hr. rewrite Hr. unfold json_answer. simpl.
  rewrite Hs, He. reflexivity.
Qed.
End Attempt.

(** ** The [except] clauses, case by case *)

Section Handlers.
Variable self : KworkAPI.
Variable rec :
  string -> option string -> option string -> Z -> bool ->
  gmap string value -> coro value.
Variables (method : string) (api_method full_url : option string).
Variables (timeout : Z) (params : gmap string value) (ri : request_info).

Lemma handlers_auth_first e :
  exn_class e = KworkAuthException ->
  handlers self rec method api_method full_url timeout false params ri e
  = Log (LogWarning
           "Authentication error, attempting to refresh token and retry.")
      (SetToken VNone
         (token_body self rec ≫= fun tok =>
            rec method api_method full_url timeout true
              (<["token" := tok]> params))).
Proof. intros H. unfold handlers, isinstance. rewrite H. reflexivity. Qed.

Lemma handlers_auth_retried e :
  exn_class e = KworkAuthException ->
  handlers self rec method api_method full_url timeout true params ri e
  = Log (LogError "Authentication failed even after token refresh." None)
      (Raise e).
Proof. intros H. unfold handlers, isinstance. rewrite H. reflexivity. Qed.

Lemma handlers_unexpected retried e :
  exn_class e <> KworkAuthException ->
  exn_class e <> ClientError ->
  exn_class e <> JSONDecodeError ->
  handlers self rec method api_method full_url timeout retried params ri e
  = Log (LogError "An unexpected error occurred during the request."
           (Some e))
      (Raise (Exn KworkException ("Неизвестная ошибка: " +:+ str_exn e)
                VNone (Some ri) (Some e))).
Proof.
  intros H1 H2 H3. unfold handlers, isinstance.
  rewrite !bool_decide_eq_false_2 by assumption. reflexivity.
Qed.
End Handlers.

Lemma trace_attempted l rq status d w :
  w_trace (attempted l rq status d w) = w_trace w ++ [rq].
Proof. reflexivity. Qed.

Lemma token_attempted l rq status d w :
  w_token (attempted l rq status d w) = w_token w.
Proof. reflexivity. Qed.

Lemma run_log {A : Type} transport l (k : coro A) w :
  run transport (Log l k) w = run transport k (with_log l w).
Proof. reflexivity. Qed.

Lemma run_set_token {A : Type} transport t (k : coro A) w :
  run transport (SetToken t k) w = run transport k (with_token t w).
Proof. reflexivity. Qed.

(** ** Rate limits *)

(** C2 (what the code does): the rate-limit error that [request] raises for
    a failure whose message contains "limit" is raised inside the [try],
    where the last clause, [except Exception], catches it.  The caller
    sees a [KworkException] whose cause is the [KworkRateLimitException];
    the transport was called once, nothing is retried and the token cache
    is left alone. *)
Theorem rate_limit_error_is_wrapped
    transport self fuel method api_method full_url timeout retried kwargs w
    status text d m :
  opt_truthy api_method || opt_truthy full_url = true ->
  transport (w_trace w)
    (request_sent self method api_method full_url timeout kwargs)
  = json_answer status text d ->
  failure_body d m ->
  contains_ci "limit" m ->
  exists w' e,
    run transport
      (request (S fuel) self method api_method full_url timeout retried
         kwargs) w
    = (w', Raised e)
    /\ exn_class e = KworkException
    /\ exn_cause e
       = Some (Exn KworkRateLimitException m
                 (default VNone (d !! "error_code"))
                 (Some (request_context method api_method full_url kwargs))
                 None)
    /\ w_trace w'
       = w_trace w
         ++ [request_sent self method api_method full_url timeout kwargs]
    /\ w_token w' = w_token w.
Proof.
  intros Ht Hr Hf Hl.
  rewrite (run_request_failure _ _ _ _ _ _ _ Ht _ _ _ _ _ _ _ Hr Hf).
  apply classify_limit in Hl.
  unfold handlers, isinstance, api_error. simpl. rewrite Hl. simpl.
  eexists _, _. repeat split.
Qed.

Lemma rate_limit_error_is_wrapped_witness :
  exists w' e,
    run rate_limited
      (request 1 me "post" (Some "actor") None 10 false
         {[ "token" := VStr "T1" ]}) signed_in
    = (w', Raised e)
    /\ exn_class e = KworkException
    /\ (exn_class <$> exn_cause e) = Some KworkRateLimitException
    /\ length (w_trace w') = 1%nat.
Proof.
  destruct (rate_limit_error_is_wrapped rate_limited me 0 "post"
              (Some "actor") None 10 false {[ "token" := VStr "T1" ]}
              signed_in 200 ""
              {[ "success" := VBool false;
                 "error" := VStr "Rate limit exceeded" ]}
              "Rate limit exceeded")
    as (w' & e & Hrun & Hc & Hcause & Htr & _).
  - reflexivity.
  - reflexivity.
  - split; reflexivity.
  - apply occurs_ci_spec. reflexivity.
  - exists w', e. rewrite Hrun, Hc, Hcause, Htr. repeat split.
Defined.

(** ** The refresh of the token and the single retry *)

Lemma drop_none_lookup (m : gmap string value) k v :
  drop_none m !! k = Some v <-> m !! k = Some v /\ is_none v = false.
Proof. unfold drop_none. rewrite map_lookup_filter_Some. reflexivity. Qed.

Lemma drop_none_idemp (m : gmap string value) :
  drop_none (drop_none m) = drop_none m.
Proof.
  apply map_eq. intros k. apply option_eq. intros v.
  rewrite !drop_none_lookup. tauto.
Qed.

Lemma drop_none_insert (m : gmap string value) k v :
  is_none v = false ->
  drop_none (<[k := v]> m) = <[k := v]> (drop_none m).
Proof.
  intros Hv. unfold drop_none. apply map_filter_insert_True. exact Hv.
Qed.

(** What [get_token] returns is a token: a value that is not false, so not
    [None] either. *)
Lemma get_token_truthy transport fuel self w w' tok :
  run transport (get_token fuel self) w = (w', Returned tok) ->
  truthy tok = true.
Proof.
  unfold get_token, get_token_body. rewrite run_bind. unfold prog_bind.
  destruct (run transport _ w) as [w1 [resp|e|]]; try discriminate.
  rewrite run_bind. unfold prog_bind. rewrite run_lift.
  destruct (py_get resp "response" (VDict ∅)) as [e|r]; try discriminate.
  simpl. rewrite run_bind. unfold prog_bind. rewrite run_lift.
  destruct (py_get r "token" VNone) as [e|t]; try discriminate.
  simpl. destruct (truthy t) eqn:Ht; simpl; intros H; inversion H.
  subst. exact Ht.
Qed.

Lemma truthy_not_none v : truthy v = true -> is_none v = false.
Proof. destruct v; simpl; auto; discriminate. Qed.

(** With an empty cache, [token] is [get_token] followed by the store of
    its result. *)
Lemma run_token_empty transport fuel self w :
  w_token w = VNone ->
  run transport (token fuel self) w
  = (tok <~ run transport (get_token fuel self) ;;
     fun w' => (with_token tok w', Returned tok)) w.
Proof.
  intros H. unfold token, token_body. simpl. rewrite H. simpl.
  rewrite run_bind. reflexivity.
Qed.

(** With a cached token, [token] returns it and touches nothing. *)
Lemma run_token_cached transport fuel self w :
  is_none (w_token w) = false ->
  run transport (token fuel self) w = (w, Returned (w_token w)).
Proof.
  intros H. unfold token, token_body. simpl. rewrite H. reflexivity.
Qed.

(** C1: when the first attempt of a call of [request] (with [retried]
    false) is answered with an authentication failure, the cached token is
    cleared, a sign-in fetches a fresh one, and the same request - method,
    URL, timeout and parameters, with the new token as its [token]
    parameter - is issued once more with [retried] true; nothing else is
    done.  When that second attempt is answered with an authentication
    failure too, the caller gets this second [KworkAuthException], and the
    second attempt was the last call of the transport. *)
Theorem auth_failure_retries_exactly_once
    transport self fuel method api_method full_url timeout kwargs w
    status text d m :
  let rq := request_sent self method api_method full_url timeout kwargs in
  let w1 :=
    with_token VNone
      (with_log
         (LogWarning
            "Authentication error, attempting to refresh token and retry.")
         (attempted (request_logged method api_method kwargs) rq status d
            w)) in
  let again tok := <["token" := tok]> (drop_none kwargs) in
  opt_truthy api_method || opt_truthy full_url = true ->
  transport (w_trace w) rq = json_answer status text d ->
  failure_body d m ->
  classify m = KworkAuthException ->
  w_token w1 = VNone
  /\ w_trace w1 = w_trace w ++ [rq]
  /\ run transport
       (request (S (S fuel)) self method api_method full_url timeout false
          kwargs) w
     = (tok <~ run transport (get_token (S fuel) self) ;;
        fun w2 =>
          run transport
            (request (S fuel) self method api_method full_url timeout true
               (again tok))
            (with_token tok w2)) w1
  /\ forall w2 tok status' text' d' m',
       run transport (get_token (S fuel) self) w1 = (w2, Returned tok) ->
       transport (w_trace w2)
         (request_sent self method api_method full_url timeout (again tok))
       = json_answer status' text' d' ->
       failure_body d' m' ->
       classify m' = KworkAuthException ->
       request_sent self method api_method full_url timeout (again tok)
       = NetRequest method (rq_url rq) (rq_authorization rq)
           (<["token" := tok]> (rq_params rq)) (rq_timeout rq)
       /\ exists w3 e,
            run transport
              (request (S (S fuel)) self method api_method full_url timeout
                 false kwargs) w
            = (w3, Raised e)
            /\ e = api_error
                     (request_context method api_method full_url (again tok))
                     d' m'
            /\ exn_class e = KworkAuthException
            /\ w_trace w3
               = w_trace w2
                 ++ [request_sent self method api_method full_url timeout
                       (again tok)]
            /\ w_token w3 = tok.
Proof.
  intros rq w1 again Ht Hr Hf Hc.
  assert (run transport
            (request (S (S fuel)) self method api_method full_url timeout
               false kwargs) w
          = (tok <~ run transport (get_token (S fuel) self) ;;
             fun w2 =>
               run transport
                 (request (S fuel) self method api_method full_url timeout
                    true (again tok))
                 (with_token tok w2)) w1) as Hretry.
  { rewrite (run_request_failure _ _ _ _ _ _ _ Ht _ _ _ _ _ _ _ Hr Hf).
    rewrite handlers_auth_first by exact Hc.
    rewrite run_log, run_set_token, run_bind.
    change (token_body self (request (S fuel) self)) with (token (S fuel) self).
    unfold prog_bind at 1. rewrite run_token_empty by reflexivity.
    unfold prog_bind.
    destruct (run transport (get_token (S fuel) self) _) as [w2 [tok|e|]];
      reflexivity. }
  split; [reflexivity | split; [reflexivity | split; [exact Hretry |]]].
  intros w2 tok status' text' d' m' Hg Hr' Hf' Hc'.
  assert (is_none tok = false) as Hn
    by (eapply truthy_not_none, get_token_truthy; exact Hg).
  split.
  - unfold request_sent, again, rq. simpl.
    rewrite drop_none_insert, drop_none_idemp by exact Hn. reflexivity.
  - rewrite Hretry. unfold prog_bind. rewrite Hg.
    change (w_trace w2) with (w_trace (with_token tok w2)) in Hr'.
    rewrite (run_request_failure _ _ _ _ _ _ _ Ht _ _ _ _ _ _ _ Hr' Hf').
    rewrite handlers_auth_retried by exact Hc'.
    eexists _, _. split; [reflexivity |]. repeat split. exact Hc'.
Qed.

Lemma auth_failure_retries_exactly_once_witness :
  exists w3 e,
    run rejecting
      (request 2 me "post" (Some "actor") None 10 false
         {[ "token" := VStr "T1" ]}) signed_in
    = (w3, Raised e)
    /\ exn_class e = KworkAuthException
    /\ rq_url <$> w_trace w3
       = [ "https://api.kwork.ru/actor"; "https://api.kwork.ru/signIn";
           "https://api.kwork.ru/actor" ]
    /\ w_token w3 = VStr "T2".
Proof.
  pose (rejection := {[ "success" := VBool false;
                        "error" := VStr "Invalid token" ]}
                     : gmap string value).
  destruct (auth_failure_retries_exactly_once rejecting me 0 "post"
              (Some "actor") None 10 {[ "token" := VStr "T1" ]} signed_in
              200 "" rejection "Invalid token")
    as (_ & _ & _ & H).
  - reflexivity.
  - reflexivity.
  - split; reflexivity.
  - reflexivity.
  - match type of H with
    | forall w2 tok _ _ _ _, run _ ?g ?w1 = _ -> _ =>
        destruct (H (run rejecting g w1).1 (VStr "T2") 200 "" rejection
                    "Invalid token")
          as (_ & w3 & e & Hrun & _ & Hc & Htr & Htok)
    end.
    + vm_compute. reflexivity.
    + vm_compute. reflexivity.
    + split; reflexivity.
    + reflexivity.
    + exists w3, e. rewrite Hrun, Hc, Htr, Htok.
      repeat split.
Defined.

(** ** Redaction *)

Lemma redact_lookup_same key (m : gmap string value) :
  redact key m !! key = (fun _ => VStr "***") <$> m !! key.
Proof.
  unfold redact. destruct (m !! key) eqn:H; simpl.
  - apply lookup_insert_eq.
  - exact H.
Qed.

Lemma redact_lookup_ne key k (m : gmap string value) :
  key <> k -> redact key m !! k = m !! k.
Proof.
  intros Hne. unfold redact. destruct (m !! key); [| reflexivity].
  apply lookup_insert_ne. exact Hne.
Qed.

Lemma logged_params_redacted kwargs : redacted_params (logged_params kwargs).
Proof.
  unfold redacted_params, logged_params. intros key [-> | ->] v.
  - rewrite redact_lookup_ne by discriminate. rewrite redact_lookup_same.
    destruct (drop_none kwargs !! "password"); simpl; congruence.
  - rewrite redact_lookup_same.
    destruct (redact "password" (drop_none kwargs) !! "token"); simpl;
      congruence.
Qed.

(** A sensitive parameter that is passed is shown as the marker. *)
Lemma logged_params_marker kwargs key v :
  key = "password" \/ key = "token" ->
  kwargs !! key = Some v -> is_none v = false ->
  logged_params kwargs !! key = Some (VStr "***").
Proof.
  intros Hk Hv Hn.
  assert (drop_none kwargs !! key = Some v) as Hd
    by (apply drop_none_lookup; auto).
  unfold logged_params. destruct Hk as [-> | ->].
  - rewrite redact_lookup_ne by discriminate.
    rewrite redact_lookup_same, Hd. reflexivity.
  - rewrite redact_lookup_same, redact_lookup_ne, Hd by discriminate.
    reflexivity.
Qed.

Lemma bind_redacted {A B : Type} (c : coro A) (f : A -> coro B) :
  diagnostics_redacted c ->
  (forall a, diagnostics_redacted (f a)) ->
  diagnostics_redacted (c ≫= f).
Proof.
  intros Hc Hf. unfold mbind, coro_mbind.
  induction Hc; simpl; try constructor; auto.
Qed.

Lemma catch_redacted {A : Type} (c : coro A) (h : exn -> coro A) :
  diagnostics_redacted c ->
  (forall e, exn_redacted e -> diagnostics_redacted (h e)) ->
  diagnostics_redacted (catch c h).
Proof.
  intros Hc Hh. induction Hc; simpl; try constructor; auto.
Qed.

Lemma lift_redacted {A : Type} (r : exn + A) :
  (forall e, r = inl e -> exn_redacted e) ->
  diagnostics_redacted (lift r).
Proof. destruct r; simpl; constructor; auto. Qed.

Lemma py_get_redacted v key dflt :
  diagnostics_redacted (lift (py_get v key dflt)).
Proof.
  apply lift_redacted. intros e H.
  destruct v; simpl in H; inversion H; simpl; auto.
Qed.

Section RedactedBody.
Variable self : KworkAPI.
Variable rec :
  string -> option string -> option string -> Z -> bool ->
  gmap string value -> coro value.
Hypothesis rec_redacted :
  forall method api_method full_url timeout retried kwargs,
    diagnostics_redacted
      (rec method api_method full_url timeout retried kwargs).

Lemma get_token_body_redacted : diagnostics_redacted (get_token_body self rec).
Proof.
  unfold get_token_body. apply bind_redacted; [apply rec_redacted |].
  intros resp. apply bind_redacted; [apply py_get_redacted |].
  intros r. apply bind_redacted; [apply py_get_redacted |].
  intros t. destruct (negb (truthy t)); constructor. simpl. auto.
Qed.

Lemma token_body_redacted : diagnostics_redacted (token_body self rec).
Proof.
  unfold token_body. constructor. intros t. destruct (is_none t).
  - apply bind_redacted; [apply get_token_body_redacted |].
    intros tok. repeat constructor.
  - constructor.
Qed.

Lemma check_response_redacted ri status json_response :
  redacted_params (ri_params ri) ->
  diagnostics_redacted (check_response ri status json_response).
Proof.
  intros Hri. unfold check_response.
  apply bind_redacted; [apply py_get_redacted |].
  intros success. constructor; [exact I |].
  destruct (negb (truthy success)); [| constructor].
  apply bind_redacted; [apply py_get_redacted |].
  intros error_msg. apply bind_redacted; [apply py_get_redacted |].
  intros error_code.
  destruct error_msg; constructor; simpl; auto.
Qed.

Lemma try_body_redacted rq ri :
  redacted_params (ri_params ri) ->
  diagnostics_redacted (try_body rq ri).
Proof.
  intros Hri. unfold try_body. constructor.
  intros [cls msg | status content_type text decoded].
  - constructor. simpl. auto.
  - destruct (negb (content_type =? "application/json")%string).
    + constructor. simpl. auto.
    + destruct decoded as [m | json_response].
      * constructor. simpl. auto.
      * apply check_response_redacted, Hri.
Qed.

Lemma handlers_redacted method api_method full_url timeout retried params
    ri e :
  redacted_params (ri_params ri) ->
  exn_redacted e ->
  diagnostics_redacted
    (handlers self rec method api_method full_url timeout retried params
       ri e).
Proof.
  intros Hri He. unfold handlers.
  destruct (isinstance e KworkAuthException).
  - destruct (negb retried).
    + constructor; [exact I |]. constructor.
      apply bind_redacted; [apply token_body_redacted |].
      intros tok. apply rec_redacted.
    + constructor; [exact I |]. constructor. exact He.
  - destruct (isinstance e ClientError); [constructor; simpl; auto |].
    destruct (isinstance e JSONDecodeError); [constructor; simpl; auto |].
    constructor; [exact He |]. constructor. simpl. auto.
Qed.

Lemma request_body_redacted method api_method full_url timeout retried
    kwargs :
  diagnostics_redacted
    (request_body self rec method api_method full_url timeout retried
       kwargs).
Proof.
  unfold request_body. constructor.
  - apply logged_params_redacted.
  - destruct (negb (opt_truthy api_method || opt_truthy full_url)).
    + constructor. simpl. auto.
    + apply catch_redacted.
      * apply try_body_redacted, logged_params_redacted.
      * intros e He. apply handlers_redacted; [| exact He].
        apply logged_params_redacted.
Qed.
End RedactedBody.

(** Every call of [request], to any depth, keeps its diagnostics
    redacted. *)
Lemma request_redacted fuel self method api_method full_url timeout retried
    kwargs :
  diagnostics_redacted
    (request fuel self method api_method full_url timeout retried kwargs).
Proof.
  revert method api_method full_url timeout retried kwargs.
  induction fuel as [|fuel IH]; intros.
  - constructor.
  - rewrite request_unfold. apply request_body_redacted. exact IH.
Qed.

Lemma dr_log_inv {A : Type} l (k : coro A) :
  diagnostics_redacted (Log l k) -> diagnostics_redacted k.
Proof.
  intros H.
  change (match Log l k with Log _ k' => diagnostics_redacted k' | _ => True
          end).
  destruct H; auto.
Qed.

(** A run of such a coroutine adds redacted lines to the log, and what it
    raises is redacted. *)
Lemma run_redacted {A : Type} transport (c : coro A) :
  diagnostics_redacted c ->
  forall w,
    (exists new,
        w_log (run transport c w).1 = w_log w ++ new
        /\ Forall log_redacted new)
    /\ (forall e, (run transport c w).2 = Raised e -> exn_redacted e).
Proof.
  induction 1 as [a|e He| |l k Hl Hk IH|k Hk IH|t k Hk IH|rq k Hk IH];
    intros w; simpl.
  - split; [exists []; rewrite app_nil_r; auto |]. discriminate.
  - split; [exists []; rewrite app_nil_r; auto |]. congruence.
  - split; [exists []; rewrite app_nil_r; auto |]. discriminate.
  - destruct (IH (with_log l w)) as [(new & Hnew & Hall) Hraise].
    split; [| exact Hraise].
    exists (l :: new). split; [| constructor; assumption].
    rewrite Hnew. simpl. rewrite <- app_assoc. reflexivity.
  - apply IH.
  - apply (IH (with_token t w)).
  - apply (IH _ (with_request rq w)).
Qed.

(** C8: for every call of [request], whatever its parameters, the service
    and the cache, each line the call logs shows a parameter map in which
    [password] and [token] hold the marker, and the request context of an
    error it raises (and of the causes of that error) does too; the call
    begins by logging its parameters, where a password or token that was
    passed appears as the marker. *)
Theorem sensitive_parameters_are_redacted
    transport self fuel method api_method full_url timeout retried kwargs w :
  let r :=
    run transport
      (request (S fuel) self method api_method full_url timeout retried
         kwargs) w in
  (forall key v,
      key = "password" \/ key = "token" ->
      kwargs !! key = Some v -> is_none v = false ->
      logged_params kwargs !! key = Some (VStr "***"))
  /\ (exists rest,
        w_log r.1
        = w_log w ++ LogRequest method api_method (logged_params kwargs)
                       :: rest
        /\ Forall log_redacted
             (LogRequest method api_method (logged_params kwargs) :: rest))
  /\ (forall e, r.2 = Raised e -> exn_redacted e).
Proof.
  intros r. split; [| split].
  - intros key v Hk Hv Hn. eapply logged_params_marker; eauto.
  - subst r. rewrite request_unfold.
    pose proof (request_body_redacted self (request fuel self)
                  (request_redacted fuel self)
                  method api_method full_url timeout retried kwargs) as H.
    unfold request_body in *. apply dr_log_inv in H.
    rewrite run_log.
    destruct (run_redacted transport _ H
                (with_log (LogRequest method api_method
                             (logged_params kwargs)) w))
      as [(new & Hnew & Hall) _].
    exists new. split.
    + unfold logged_params in *. rewrite Hnew. simpl.
      rewrite <- app_assoc. reflexivity.
    + constructor; [apply logged_params_redacted | assumption].
  - subst r. intros e He.
    eapply (run_redacted transport _ (request_redacted _ _ _ _ _ _ _ _));
      exact He.
Qed.

(** ** The sequential fetch of the dialogs *)

Lemma token_not_none transport fuel self w w' tok :
  run transport (token fuel self) w = (w', Returned tok) ->
  is_none tok = false.
Proof.
  destruct (is_none (w_token w)) eqn:Hn.
  - assert (w_token w = VNone) as H0 by (destruct (w_token w); auto; discriminate).
    rewrite run_token_empty by exact H0. unfold prog_bind.
    destruct (run transport (get_token fuel self) w) as [w1 [t|e|]] eqn:Hg;
      try discriminate.
    intros H; inversion H; subst.
    eapply truthy_not_none, get_token_truthy; exact Hg.
  - rewrite run_token_cached by exact Hn. intros H; inversion H; subst.
    exact Hn.
Qed.

Lemma map_model_app {A : Type} (model : value -> exn + A) xs ys rs :
  map_model model (xs ++ ys) = inr rs ->
  exists r1 r2,
    map_model model xs = inr r1 /\ map_model model ys = inr r2
    /\ rs = r1 ++ r2.
Proof.
  revert rs; induction xs as [|x xs IH]; intros rs; simpl.
  - intros H. exists [], rs. auto.
  - destruct (model x) as [e|a]; simpl; [discriminate |].
    destruct (map_model model (xs ++ ys)) as [e|r] eqn:Hr; simpl;
      [discriminate |].
    intros H; inversion H; subst.
    destruct (IH r eq_refl) as (r1 & r2 & -> & -> & ->).
    exists (a :: r1), r2. auto.
Qed.

Lemma map_model_app_inr {A : Type} (model : value -> exn + A) xs ys r1 r2 :
  map_model model xs = inr r1 -> map_model model ys = inr r2 ->
  map_model model (xs ++ ys) = inr (r1 ++ r2).
Proof.
  revert r1; induction xs as [|x xs IH]; intros r1; simpl.
  - intros H; inversion H; subst. auto.
  - destruct (model x) as [e|a]; simpl; [discriminate |].
    destruct (map_model model xs) as [e|r] eqn:Hr; simpl; [discriminate |].
    intros H Hy; inversion H; subst.
    rewrite (IH r eq_refl Hy). reflexivity.
Qed.

Section Dialogs.
Context {A : Type}.
Variable transport : list net_request -> net_request -> transport_result.
Variable self : KworkAPI.
Variable fuel : nat.
Variable model : value -> exn + A.
Variable tok : value.

Lemma dialogs_loop_unfold rounds page dialogs :
  dialogs_loop self (S fuel) model (S rounds) page dialogs tok
  = (dialogs_page ←
       request (S fuel) self "post" (Some "dialogs") None 10 false
         {[ "filter" := VStr "all"; "page" := VInt page; "token" := tok ]};
     r ← lift (py_getitem dialogs_page "response");
     if negb (truthy r) then Ret dialogs
     else
       new ← lift (items ← py_iter r; map_model model items);
       dialogs_loop self (S fuel) model rounds (page + 1) (dialogs ++ new)
         tok).
Proof. reflexivity. Qed.

Lemma dialogs_requests_shift p n :
  (fun k => dialogs_request self (p + Z.of_nat k) tok) <$> seq 0 (S n)
  = dialogs_request self p tok
    :: ((fun k => dialogs_request self (p + 1 + Z.of_nat k) tok)
          <$> seq 0 n).
Proof.
  change (seq 0 (S n)) with (0%nat :: seq 1 n). rewrite fmap_cons.
  change (Z.of_nat 0) with 0. rewrite Z.add_0_r. f_equal.
  rewrite <- seq_shift, <- list_fmap_compose.
  apply list_fmap_ext. intros _ k _. simpl. f_equal. lia.
Qed.

Lemma dialogs_loop_run pages :
  forall rounds p dialogs w records,
    Forall (fun items => items <> []) pages ->
    serves transport self tok p (pages ++ [[]]) ->
    map_model model (concat pages) = inr records ->
    (length pages < rounds)%nat ->
    exists w',
      run transport (dialogs_loop self (S fuel) model rounds p dialogs tok) w
      = (w', Returned (dialogs ++ records))
      /\ w_trace w'
         = w_trace w
           ++ ((fun k => dialogs_request self (p + Z.of_nat k) tok)
                 <$> seq 0 (S (length pages)))
      /\ w_token w' = w_token w.
Proof.
  induction pages as [|items pages IH];
    intros rounds p dialogs w records Hne Hserve Hmodel Hrounds;
    (destruct rounds as [|rounds]; [simpl in Hrounds; lia |]).
  - destruct (Hserve (w_trace w) 0%nat [] eq_refl)
      as (status & text & d & Hr & Hs & Hresp).
    change (Z.of_nat 0) with 0 in Hr. rewrite Z.add_0_r in Hr.
    unfold dialogs_request in Hr.
    simpl in Hmodel. inversion Hmodel; subst.
    rewrite dialogs_loop_unfold, run_bind. unfold prog_bind.
    rewrite (run_request_success transport self "post" (Some "dialogs") None
               10 _ eq_refl fuel false w status text d Hr Hs).
    rewrite run_bind. unfold prog_bind. rewrite run_lift.
    simpl. rewrite Hresp. simpl.
    eexists. split; [rewrite app_nil_r; reflexivity |].
    split; [| reflexivity].
    simpl. change (Z.of_nat 0) with 0. rewrite Z.add_0_r. reflexivity.
  - remember ((fun k => dialogs_request self (p + Z.of_nat k) tok)
                <$> seq 0 (S (length (items :: pages)))) as reqs eqn:Hreqs.
    change (length (items :: pages)) with (S (length pages)) in Hreqs.
    rewrite (dialogs_requests_shift p (S (length pages))) in Hreqs.
    destruct (Hserve (w_trace w) 0%nat items eq_refl)
      as (status & text & d & Hr & Hs & Hresp).
    change (Z.of_nat 0) with 0 in Hr. rewrite Z.add_0_r in Hr.
    unfold dialogs_request in Hr.
    simpl in Hmodel. apply map_model_app in Hmodel
      as (r1 & r2 & Hm1 & Hm2 & ->).
    apply Forall_cons in Hne as [Hitems Hne'].
    rewrite dialogs_loop_unfold, run_bind. unfold prog_bind.
    rewrite (run_request_success transport self "post" (Some "dialogs") None
               10 _ eq_refl fuel false w status text d Hr Hs).
    rewrite run_bind. unfold prog_bind. rewrite run_lift.
    simpl. rewrite Hresp. simpl.
    destruct items as [|item items]; [congruence |]. simpl negb. cbv iota.
    rewrite run_bind. unfold prog_bind. rewrite run_lift.
    change (items0 ← inr (item :: items); map_model model items0)
      with (map_model model (item :: items)).
    rewrite Hm1. simpl.
    destruct (IH rounds (p + 1) (dialogs ++ r1)
                (attempted
                   (request_logged "post" (Some "dialogs")
                      {[ "filter" := VStr "all"; "page" := VInt p;
                         "token" := tok ]})
                   (request_sent self "post" (Some "dialogs") None 10
                      {[ "filter" := VStr "all"; "page" := VInt p;
                         "token" := tok ]})
                   status d w) r2 Hne')
      as (w' & Hrun & Htrace & Htok).
    + intros hist k its Hk.
      replace (p + 1 + Z.of_nat k) with (p + Z.of_nat (S k)) by lia.
      apply Hserve. exact Hk.
    + exact Hm2.
    + simpl in Hrounds. lia.
    + exists w'. split; [rewrite Hrun, app_assoc; reflexivity |].
      split; [| rewrite Htok; reflexivity].
      rewrite Htrace, trace_attempted, <- app_assoc, Hreqs. reflexivity.
Qed.
End Dialogs.

Lemma map_model_length {A : Type} (model : value -> exn + A) items records :
  map_model model items = inr records -> length records = length items.
Proof.
  revert records; induction items as [|x xs IH]; intros records; simpl.
  - intros H; inversion H. reflexivity.
  - destruct (model x) as [e|a]; simpl; [discriminate |].
    destruct (map_model model xs) as [e|r]; simpl; [discriminate |].
    intros H; inversion H; subst. simpl. f_equal. apply IH. reflexivity.
Qed.

(** C6: [get_all_dialogs], once it has the token, asks for the pages 1, 2,
    3, ... of the dialogs one after the other; as soon as a page comes back
    with an empty list of records it asks for nothing more, and it returns
    the records of the pages before, in the order of the requests.  For the
    pages given ([pages], none of them empty, followed by an empty one) the
    requests are those for the pages 1 to [length pages + 1], and the
    result has as many records as the pages hold: for pages of 3, 2 and 0
    records, 5 records and three requests. *)
Theorem sequential_fetch_stops_at_first_empty_page
    {A : Type} transport self fuel (model : value -> exn + A) rounds
    w w1 tok pages records :
  run transport (token (S fuel) self) w = (w1, Returned tok) ->
  Forall (fun items => items <> []) pages ->
  serves transport self tok 1 (pages ++ [[]]) ->
  map_model model (concat pages) = inr records ->
  (length pages < rounds)%nat ->
  exists w',
    run transport (get_all_dialogs self (S fuel) model rounds) w
    = (w', Returned records)
    /\ w_trace w'
       = w_trace w1
         ++ ((fun k => dialogs_request self (1 + Z.of_nat k) tok)
               <$> seq 0 (S (length pages)))
    /\ length records = length (concat pages).
Proof.
  intros Htok Hne Hserve Hmodel Hrounds.
  unfold get_all_dialogs. rewrite run_bind. unfold prog_bind. rewrite Htok.
  destruct (dialogs_loop_run transport self fuel model tok pages rounds 1 []
              w1 records Hne Hserve Hmodel Hrounds)
    as (w' & Hrun & Htrace & _).
  exists w'. split; [exact Hrun |]. split; [exact Htrace |].
  eapply map_model_length; exact Hmodel.
Qed.

Lemma sequential_fetch_stops_at_first_empty_page_witness :
  exists w',
    run dialog_service (get_all_dialogs me 1 raw_record 3) signed_in
    = (w', Returned [record 1; record 2; record 3; record 4; record 5])
    /\ page_of <$> w_trace w' = [1; 2; 3].
Proof.
  destruct (sequential_fetch_stops_at_first_empty_page
              dialog_service me 0 raw_record 3 signed_in signed_in
              (VStr "T1")
              [[record 1; record 2; record 3]; [record 4; record 5]]
              [record 1; record 2; record 3; record 4; record 5])
    as (w' & Hrun & Htrace & _).
  - reflexivity.
  - repeat constructor; discriminate.
  - intros hist k items Hk.
    destruct k as [|[|[|k]]]; simpl in Hk; inversion Hk; subst;
      eexists _, _, _; (split; [reflexivity | split; reflexivity]).
  - reflexivity.
  - simpl. lia.
  - exists w'. split; [exact Hrun |]. rewrite Htrace. reflexivity.
Defined.

(** ** The fetch of all pages *)

Section Paginated.
Context {A : Type}.
Variable transport : list net_request -> net_request -> transport_result.
Variable self : KworkAPI.
Variable fuel : nat.
Variable model : value -> exn + A.
Variables (api_method : string) (params : gmap string value).
Hypothesis no_page : params !! "page" = None.

(** Up to the first page: the fetch begins with the call for page 1. *)
Lemma fetch_first_page sched w w1 first :
  run transport (page_call fuel self api_method params 1) w
  = (w1, Returned first) ->
  _fetch_paginated_data transport self fuel model sched api_method params w
  = (paging <~ pure (py_get first "paging" VNone) ;;
     single <~ pure (if negb (truthy paging) then inr true
                     else pages ← py_get paging "pages" (VInt 1);
                          py_le_1 pages) ;;
     if (single : bool) then
       pure (r ← py_get first "response" (VList []);
             items ← py_iter r;
             map_model model items)
     else
       total_pages <~ pure (py_getitem paging "pages") ;;
       results <~ pure (py_get first "response" (VList [])) ;;
       pages <~ pure (py_range_2 total_pages) ;;
       other_pages_responses <~
         gather transport sched
           (page_call fuel self api_method params <$> pages) ;;
       results' <~
         run transport
           (merge_pages api_method results other_pages_responses) ;;
       pure (items ← py_iter results'; map_model model items)) w1.
Proof.
  intros H. unfold _fetch_paginated_data, kwargs_page. rewrite no_page.
  unfold prog_bind at 1. unfold pure at 1.
  unfold prog_bind at 1. unfold page_call in H. rewrite H. reflexivity.
Qed.

Lemma fetch_single_page sched w w1 first items :
  run transport (page_call fuel self api_method params 1) w
  = (w1, Returned first) ->
  single_page first items ->
  _fetch_paginated_data transport self fuel model sched api_method params w
  = (w1, built (map_model model items)).
Proof.
  intros Hrun (d & -> & Hpaging & Hresp).
  rewrite (fetch_first_page sched w w1 (VDict d) Hrun).
  unfold prog_bind, pure. simpl.
  destruct Hpaging as [Hp | (dp & n & Hp & Hn & Hle)].
  - rewrite Hp. simpl. rewrite Hresp. simpl.
    destruct (map_model model items); reflexivity.
  - rewrite Hp. simpl.
    destruct (negb (bool_decide (dp = ∅))); simpl.
    + rewrite Hn. simpl.
      assert ((n <=? 1) = true) as -> by (apply Z.leb_le; exact Hle).
      rewrite Hresp. simpl. destruct (map_model model items); reflexivity.
    + rewrite Hresp. simpl. destruct (map_model model items); reflexivity.
Qed.
End Paginated.

(** C4 (as it stands in the specification, refuted): the first page comes
    without paging metadata, the fetch returns its one record, and yet the
    transport was called three times: the request for the page was answered
    with an authentication failure, a sign-in followed, and the request
    was issued again. *)
Lemma single_page_fetch_may_issue_three_requests :
  exists w1 first,
    run expiring (page_call 2 me "inboxes" inbox_params 1) signed_in
    = (w1, Returned first)
    /\ py_get first "paging" VNone = inr VNone
    /\ _fetch_paginated_data expiring me 2 raw_record [] "inboxes"
         inbox_params signed_in
       = (w1, Returned [record 1])
    /\ rq_url <$> w_trace w1
       = [ "https://api.kwork.ru/inboxes"; "https://api.kwork.ru/signIn";
           "https://api.kwork.ru/inboxes" ]
    /\ length (w_trace w1) <> 1%nat.
Proof.
  eexists _, _. split; [vm_compute; reflexivity |].
  split; [vm_compute; reflexivity |].
  split; [vm_compute; reflexivity |].
  split; [vm_compute; reflexivity | vm_compute; discriminate].
Qed.

(** C4 (amended): when the first page carries no paging metadata or a page
    count of at most one, [_fetch_paginated_data] makes exactly one call of
    [request], the one for page 1, and none for another page: it leaves
    the world as that call left it, and it returns the records of that
    page.  That call reaches the transport once when its first attempt is
    answered with the page; it reaches it again (sign-in and second
    attempt) when the first attempt is answered with an authentication
    failure. *)
Theorem single_page_fetch_makes_one_request_call
    {A : Type} transport self fuel (model : value -> exn + A) sched
    api_method params w w1 first items :
  params !! "page" = None ->
  run transport (page_call (S fuel) self api_method params 1) w
  = (w1, Returned first) ->
  single_page first items ->
  _fetch_paginated_data transport self (S fuel) model sched api_method
    params w
  = (w1, built (map_model model items))
  /\ (forall status text d,
        transport (w_trace w) (page_request self api_method params 1)
        = json_answer status text d ->
        truthy (default VNone (d !! "success")) = true ->
        w_trace w1 = w_trace w ++ [page_request self api_method params 1]).
Proof.
  intros Hpage Hrun Hsingle. split.
  - eapply fetch_single_page; eassumption.
  - intros status text d Hr Hs. unfold page_call in Hrun.
    destruct (opt_truthy (Some api_method) || opt_truthy None) eqn:Ht.
    + rewrite (run_request_success transport self "post" (Some api_method)
                 None 10 _ Ht fuel false w status text d Hr Hs) in Hrun.
      inversion Hrun. reflexivity.
    + rewrite run_request_no_target in Hrun by exact Ht. discriminate.
Qed.

Lemma single_page_fetch_makes_one_request_call_witness :
  _fetch_paginated_data dialog_service me 1 raw_record [] "dialogs"
    {[ "token" := VStr "T1" ]} signed_in
  = (attempted
       (request_logged "post" (Some "dialogs")
          {[ "page" := VInt 1; "token" := VStr "T1" ]})
       (page_request me "dialogs" {[ "token" := VStr "T1" ]} 1) 200
       {[ "success" := VBool true;
          "response" := VList [record 1; record 2; record 3] ]} signed_in,
     Returned [record 1; record 2; record 3])
  /\ length (w_trace
               (_fetch_paginated_data dialog_service me 1 raw_record []
                  "dialogs" {[ "token" := VStr "T1" ]} signed_in).1)
     = 1%nat.
Proof.
  destruct (single_page_fetch_makes_one_request_call
              dialog_service me 0 raw_record [] "dialogs"
              {[ "token" := VStr "T1" ]} signed_in
              (attempted
                 (request_logged "post" (Some "dialogs")
                    {[ "page" := VInt 1; "token" := VStr "T1" ]})
                 (page_request me "dialogs" {[ "token" := VStr "T1" ]} 1) 200
                 {[ "success" := VBool true;
                    "response" := VList [record 1; record 2; record 3] ]}
                 signed_in)
              (VDict {[ "success" := VBool true;
                        "response" :=
                          VList [record 1; record 2; record 3] ]})
              [record 1; record 2; record 3])
    as [Hfetch Htrace].
  - reflexivity.
  - vm_compute. reflexivity.
  - eexists. split; [reflexivity |]. split; [left |]; reflexivity.
  - rewrite Hfetch. split; [reflexivity |].
    simpl fst. rewrite (Htrace 200 "" _ eq_refl eq_refl). reflexivity.
Defined.

Lemma dict_with_key_truthy (d : gmap string value) key v :
  d !! key = Some v -> truthy (VDict d) = true.
Proof.
  intros H. simpl. rewrite bool_decide_eq_false_2; [reflexivity |].
  intros ->. rewrite lookup_empty in H. discriminate.
Qed.

(** C3: when the first page reports five pages and, of the calls gathered
    for the pages 2 to 5, the one for page 3 ends with an exception while
    the others return their pages, [_fetch_paginated_data] raises nothing
    and returns the records of the pages 1, 2, 4 and 5, in this order,
    whatever the order in which the requests were answered; the failure is
    logged. *)
Theorem failed_page_is_skipped
    {A : Type} transport self fuel (model : value -> exn + A) sched
    api_method params w w1 w2 d1 dp p2 e3 p4 p5 r1 r2 r4 r5 records :
  params !! "page" = None ->
  run transport (page_call (S fuel) self api_method params 1) w
  = (w1, Returned (VDict d1)) ->
  d1 !! "paging" = Some (VDict dp) ->
  dp !! "pages" = Some (VInt 5) ->
  default (VList []) (d1 !! "response") = VList r1 ->
  gather transport sched
    (page_call (S fuel) self api_method params <$> [2; 3; 4; 5]) w1
  = (w2, Returned [inr p2; inl e3; inr p4; inr p5]) ->
  py_get p2 "response" (VList []) = inr (VList r2) ->
  py_get p4 "response" (VList []) = inr (VList r4) ->
  py_get p5 "response" (VList []) = inr (VList r5) ->
  map_model model (r1 ++ r2 ++ r4 ++ r5) = inr records ->
  _fetch_paginated_data transport self (S fuel) model sched api_method
    params w
  = (with_log
       (LogError ("Failed to fetch a page for " +:+ api_method +:+ ": "
                    +:+ str_exn e3) None) w2,
     Returned records).
Proof.
  intros Hpage Hfirst Hpaging Hpages Hr1 Hgather Hp2 Hp4 Hp5 Hmodel.
  rewrite (fetch_first_page transport self (S fuel) model api_method params
             Hpage sched w w1 (VDict d1) Hfirst).
  unfold prog_bind at 1. unfold pure at 1. simpl py_get. rewrite Hpaging.
  simpl default.
  unfold prog_bind at 1. unfold pure at 1.
  rewrite (dict_with_key_truthy dp "pages" _ Hpages). simpl negb. cbv iota.
  simpl py_get. rewrite Hpages. simpl.
  unfold prog_bind at 1. unfold pure at 1. rewrite Hpages.
  unfold prog_bind at 1. unfold pure at 1. rewrite Hr1.
  unfold prog_bind at 1. unfold pure at 1.
  unfold prog_bind at 1.
  change (py_range_2 (VInt 5)) with (@inr exn (list Z) [2; 3; 4; 5]).
  cbv beta iota. rewrite Hgather.
  unfold prog_bind, pure. simpl merge_pages.
  rewrite run_bind. unfold prog_bind. rewrite run_lift, Hp2.
  unfold pure. simpl.
  rewrite run_bind. unfold prog_bind. rewrite run_lift, Hp4.
  unfold pure. simpl.
  rewrite run_bind. unfold prog_bind. rewrite run_lift, Hp5.
  unfold pure. simpl.
  rewrite <- !app_assoc, Hmodel. reflexivity.
Qed.

Lemma failed_page_is_skipped_witness :
  (_fetch_paginated_data five_pages me 1 raw_record [3; 1; 0; 2]%nat
     "projects" {[ "token" := VStr "T1" ]} signed_in).2
  = Returned [record 10; record 11; record 20; record 21;
              record 40; record 41; record 50; record 51].
Proof.
  erewrite (failed_page_is_skipped five_pages me 0 raw_record
              [3; 1; 0; 2]%nat "projects" {[ "token" := VStr "T1" ]}
              signed_in).
  - reflexivity.
  - reflexivity.
  - vm_compute. reflexivity.
  - vm_compute. reflexivity.
  - vm_compute. reflexivity.
  - vm_compute. reflexivity.
  - vm_compute. reflexivity.
  - vm_compute. reflexivity.
  - vm_compute. reflexivity.
  - vm_compute. reflexivity.
  - vm_compute. reflexivity.
Defined.

(** ** One page of projects *)

(** C10 (as it stands in the specification, refuted): the cached token has
    expired; [get_projects] with an explicit page returns the records of
    the page, and the transport was called three times, twice of them for
    the page: the first request for it was answered with an authentication
    failure, a sign-in followed, and the request was issued again. *)
Lemma get_projects_page_may_issue_three_requests :
  exists w',
    get_projects expiring me 2 raw_record [] [inl 11] VNone VNone VNone
      VNone VNone (VInt 2) VNone signed_in
    = (w', Returned [record 1])
    /\ rq_url <$> w_trace w'
       = [ "https://api.kwork.ru/projects"; "https://api.kwork.ru/signIn";
           "https://api.kwork.ru/projects" ]
    /\ length (w_trace w') <> 1%nat.
Proof.
  eexists. split; [vm_compute; reflexivity |].
  split; [vm_compute; reflexivity | vm_compute; discriminate].
Qed.

(** C10 (amended): [get_projects] with a non-empty list of categories and an
    explicit page obtains the token and then makes exactly one call of
    [request], for that page of the projects; it returns the records of the
    answer to that call and looks at nothing else in it (its paging
    metadata plays no part), and it fetches no other page.  The transport
    is called once when the token is cached and the first attempt is
    answered with the page; a sign-in (no token cached) or the refresh and
    retry after an authentication failure add their own requests. *)
Theorem get_projects_page_makes_one_request_call
    {A : Type} transport self fuel (model : value -> exn + A) sched
    categories_ids price_from price_to hiring_from kworks_filter_from
    kworks_filter_to page query w w1 w2 tok d items :
  categories_ids <> [] ->
  is_none page = false ->
  run transport (token (S fuel) self) w = (w1, Returned tok) ->
  run transport
    (request (S fuel) self "post" (Some "projects") None 10 false
       (<["page" := page]>
          (projects_params categories_ids price_from price_to hiring_from
             kworks_filter_from kworks_filter_to query tok))) w1
  = (w2, Returned (VDict d)) ->
  default (VList []) (d !! "response") = VList items ->
  get_projects transport self (S fuel) model sched categories_ids price_from
    price_to hiring_from kworks_filter_from kworks_filter_to page query w
  = (w2, built (map_model model items))
  /\ (is_none (w_token w) = false ->
      forall status text d',
        let rq :=
          request_sent self "post" (Some "projects") None 10
            (<["page" := page]>
               (projects_params categories_ids price_from price_to
                  hiring_from kworks_filter_from kworks_filter_to query
                  (w_token w))) in
        transport (w_trace w) rq = json_answer status text d' ->
        truthy (default VNone (d' !! "success")) = true ->
        w_trace w2 = w_trace w ++ [rq]).
Proof.
  intros Hcat Hpage Htok Hrun Hresp. split.
  - unfold get_projects.
    destruct categories_ids as [|c cs]; [congruence |].
    unfold prog_bind at 1. rewrite Htok. rewrite Hpage.
    change (negb false) with true. cbv iota.
    unfold prog_bind at 1. unfold projects_params in Hrun. rewrite Hrun.
    unfold pure. simpl. rewrite Hresp. simpl.
    destruct (map_model model items); reflexivity.
  - intros Hcached status text d' rq Hr Hs.
    rewrite run_token_cached in Htok by exact Hcached.
    inversion Htok; subst w1 tok.
    rewrite (run_request_success transport self "post" (Some "projects")
               None 10 _ eq_refl fuel false w status text d' Hr Hs) in Hrun.
    inversion Hrun. reflexivity.
Qed.

Lemma get_projects_page_makes_one_request_call_witness :
  exists w',
    get_projects five_pages me 1 raw_record [] [inl 11; inr "79"]
      VNone VNone VNone VNone VNone (VInt 2) VNone signed_in
    = (w', Returned [record 20; record 21])
    /\ page_of <$> w_trace w' = [2].
Proof.
  pose (body := <["success" := VBool true]>
                  ({[ "paging" := VDict {[ "pages" := VInt 5 ]};
                      "response" := VList [record 20; record 21] ]}
                   : gmap string value)).
  destruct (get_projects_page_makes_one_request_call
              five_pages me 0 raw_record [] [inl 11; inr "79"]
              VNone VNone VNone VNone VNone (VInt 2) VNone
              signed_in signed_in
              (run five_pages
                 (request 1 me "post" (Some "projects") None 10 false
                    (<["page" := VInt 2]>
                       (projects_params [inl 11; inr "79"] VNone VNone VNone
                          VNone VNone VNone (VStr "T1")))) signed_in).1
              (VStr "T1") body [record 20; record 21])
    as [Hget Htrace].
  - discriminate.
  - reflexivity.
  - reflexivity.
  - vm_compute. reflexivity.
  - reflexivity.
  - eexists. split; [exact Hget |].
    rewrite (Htrace eq_refl 200 "" body); [reflexivity | | reflexivity].
    vm_compute. reflexivity.
Defined.

(** * Further properties of the client *)

(** ** What [request] sends and what it returns *)

Lemma bind_leaves {A B : Type} sent (R : A -> Prop) (Q : B -> Prop)
    (c : coro A) (f : A -> coro B) :
  leaves sent R c ->
  (forall a, R a -> leaves sent Q (f a)) ->
  leaves sent Q (c ≫= f).
Proof.
  intros Hc Hf. unfold mbind, coro_mbind.
  induction Hc; simpl; try constructor; auto.
Qed.

Lemma catch_leaves {A : Type} sent (R : A -> Prop) (c : coro A) h :
  leaves sent R c ->
  (forall e, leaves sent R (h e)) ->
  leaves sent R (catch c h).
Proof.
  intros Hc Hh. induction Hc; simpl; try constructor; auto.
Qed.

Lemma lift_leaves {A : Type} sent (R : A -> Prop) (r : exn + A) :
  (forall a, r = inr a -> R a) -> leaves sent R (lift r).
Proof. destruct r; simpl; constructor; auto. Qed.

Lemma leaves_weaken {A : Type} sent (R Q : A -> Prop) (c : coro A) :
  leaves sent R c -> (forall a, R a -> Q a) -> leaves sent Q c.
Proof. intros Hc HRQ. induction Hc; constructor; auto. Qed.

Section LeavesBody.
Variable self : KworkAPI.
Variable rec :
  string -> option string -> option string -> Z -> bool ->
  gmap string value -> coro value.
Hypothesis rec_leaves :
  forall method api_method full_url timeout retried kwargs,
    leaves (well_formed_request self) success_body
      (rec method api_method full_url timeout retried kwargs).

Lemma get_token_body_leaves :
  leaves (well_formed_request self) (fun tok => truthy tok = true)
    (get_token_body self rec).
Proof.
  unfold get_token_body.
  eapply bind_leaves; [apply rec_leaves |]. intros resp _.
  eapply bind_leaves; [apply (lift_leaves _ (fun _ => True)); auto |].
  intros r _.
  eapply bind_leaves; [apply (lift_leaves _ (fun _ => True)); auto |].
  intros t _. destruct (truthy t) eqn:Ht; simpl; constructor. exact Ht.
Qed.

Lemma token_body_leaves :
  leaves (well_formed_request self) (fun tok => is_none tok = false)
    (token_body self rec).
Proof.
  unfold token_body. constructor. intros t. destruct (is_none t) eqn:Ht.
  - eapply bind_leaves; [apply get_token_body_leaves |].
    intros tok Htok. repeat constructor. apply truthy_not_none, Htok.
  - constructor. exact Ht.
Qed.

Lemma check_response_leaves ri status json_response :
  leaves (well_formed_request self) success_body
    (check_response ri status json_response).
Proof.
  unfold check_response.
  destruct json_response as [| | | | |d]; try (simpl; constructor).
  simpl. destruct (truthy (default VNone (d !! "success"))) eqn:Hs; simpl.
  - constructor. exists d. auto.
  - destruct (default (VStr "Unknown error") (d !! "error"));
      simpl; constructor.
Qed.

Lemma handlers_leaves method api_method full_url timeout retried params
    ri e :
  leaves (well_formed_request self) success_body
    (handlers self rec method api_method full_url timeout retried params
       ri e).
Proof.
  unfold handlers.
  destruct (isinstance e KworkAuthException).
  - destruct (negb retried).
    + constructor. constructor.
      eapply bind_leaves; [apply token_body_leaves |].
      intros tok _. apply rec_leaves.
    + constructor. constructor.
  - destruct (isinstance e ClientError); [constructor |].
    destruct (isinstance e JSONDecodeError); repeat constructor.
Qed.

Lemma request_body_leaves method api_method full_url timeout retried
    kwargs :
  leaves (well_formed_request self) success_body
    (request_body self rec method api_method full_url timeout retried
       kwargs).
Proof.
  unfold request_body. constructor.
  destruct (negb (opt_truthy api_method || opt_truthy full_url));
    [constructor |].
  apply catch_leaves; [| intros e; apply handlers_leaves].
  unfold try_body. constructor.
  - split; [reflexivity |]. simpl. intros k v Hk.
    apply drop_none_lookup in Hk. tauto.
  - intros [cls msg | status content_type text decoded]; [constructor |].
    destruct (negb (content_type =? "application/json")%string);
      [constructor |].
    destruct decoded; [constructor | apply check_response_leaves].
Qed.
End LeavesBody.

Lemma request_leaves fuel self method api_method full_url timeout retried
    kwargs :
  leaves (well_formed_request self) success_body
    (request fuel self method api_method full_url timeout retried kwargs).
Proof.
  revert method api_method full_url timeout retried kwargs.
  induction fuel as [|fuel IH]; intros.
  - constructor.
  - rewrite request_unfold. apply request_body_leaves. exact IH.
Qed.

Lemma run_leaves {A : Type} transport sent (R : A -> Prop) (c : coro A) :
  leaves sent R c ->
  forall w,
    (exists new,
        w_trace (run transport c w).1 = w_trace w ++ new
        /\ Forall sent new)
    /\ (forall a, (run transport c w).2 = Returned a -> R a).
Proof.
  induction 1 as [a Ha|e| |l k Hk IH|k Hk IH|t k Hk IH|rq k Hrq Hk IH];
    intros w; simpl.
  - split; [exists []; rewrite app_nil_r; auto |]. congruence.
  - split; [exists []; rewrite app_nil_r; auto |]. discriminate.
  - split; [exists []; rewrite app_nil_r; auto |]. discriminate.
  - apply (IH (with_log l w)).
  - apply IH.
  - apply (IH (with_token t w)).
  - destruct (IH (transport (w_trace w) rq) (with_request rq w))
      as [(new & Hnew & Hall) Hret].
    split; [| exact Hret].
    exists (rq :: new). split; [| constructor; assumption].
    rewrite Hnew. simpl. rewrite <- app_assoc. reflexivity.
Qed.

(** X1: what [request] returns, when it returns, is a decoded object whose
    success flag is true: a body that is not an object, or whose flag is
    false or missing, never reaches the caller as a result. *)
Theorem request_returns_success_body
    transport fuel self method api_method full_url timeout retried kwargs
    w w' v :
  run transport
    (request fuel self method api_method full_url timeout retried kwargs) w
  = (w', Returned v) ->
  success_body v.
Proof.
  intros H.
  apply (run_leaves transport _ _ _
           (request_leaves fuel self method api_method full_url timeout
              retried kwargs) w).
  rewrite H. reflexivity.
Qed.

Lemma request_returns_success_body_witness :
  success_body
    (VDict (<["success" := VBool true]>
              {[ "response" := VList [record 1] ]})).
Proof.
  apply (request_returns_success_body expiring 2 me "post" (Some "inboxes")
           None 10 false inbox_params signed_in
           (run expiring
              (request 2 me "post" (Some "inboxes") None 10 false
                 inbox_params) signed_in).1).
  vm_compute. reflexivity.
Defined.

(** X2: every request a call of [request] hands to the transport - its
    own attempts and those of the sign-in it may trigger - carries the key
    of the client as its authorization and no parameter whose value is
    [None]. *)
Theorem request_sends_well_formed_requests
    transport fuel self method api_method full_url timeout retried kwargs w :
  exists new,
    w_trace
      (run transport
         (request fuel self method api_method full_url timeout retried
            kwargs) w).1
    = w_trace w ++ new
    /\ Forall (well_formed_request self) new.
Proof.
  apply (run_leaves transport _ _ _
           (request_leaves fuel self method api_method full_url timeout
              retried kwargs) w).
Qed.

(** ** One attempt, answer by answer *)

Lemma try_body_answered rq ri : try_body rq ri = Await rq (answered ri).
Proof. reflexivity. Qed.

(** Nothing in the body of the [try] suspends, reads the cache or fails to
    come back once the transport has answered. *)
Lemma run_answered transport ri r w :
  exists logs o,
    run transport (answered ri r) w
    = (World (w_token w) (w_trace w) (w_log w ++ logs), o)
    /\ o <> Diverged.
Proof.
  destruct w as [t tr lg].
  destruct r as [cls msg | status content_type text decoded]; simpl.
  - exists [], (Raised (builtin_exn cls msg)). rewrite app_nil_r. auto.
  - destruct (negb (content_type =? "application/json")%string).
    + eexists [], _. rewrite app_nil_r. split; [reflexivity | discriminate].
    + destruct decoded as [m | j].
      * eexists [], _. rewrite app_nil_r.
        split; [reflexivity | discriminate].
      * unfold check_response.
        destruct j as [| | | | |d];
          try (eexists [], _; rewrite app_nil_r;
               split; [reflexivity | discriminate]).
        simpl.
        destruct (truthy (default VNone (d !! "success"))); simpl.
        -- eexists [_], _. split; [reflexivity | discriminate].
        -- destruct (default (VStr "Unknown error") (d !! "error"));
             simpl; eexists [_], _; (split; [reflexivity | discriminate]).
Qed.

Section AttemptAnswered.
Variable transport : list net_request -> net_request -> transport_result.
Variable self : KworkAPI.
Variables (method : string) (api_method full_url : option string).
Variables (timeout : Z) (kwargs : gmap string value).
Hypothesis target : opt_truthy api_method || opt_truthy full_url = true.

Lemma run_request_answered fuel retried w :
  run transport
    (request (S fuel) self method api_method full_url timeout retried
       kwargs) w
  = match
      run transport
        (answered (request_context method api_method full_url kwargs)
           (transport (w_trace w)
              (request_sent self method api_method full_url timeout
                 kwargs)))
        (sent_from (request_logged method api_method kwargs)
           (request_sent self method api_method full_url timeout kwargs) w)
    with
    | (w', Raised e) =>
        run transport
          (handlers self (request fuel self) method api_method full_url
             timeout retried (drop_none kwargs)
             (request_context method api_method full_url kwargs) e) w'
    | r => r
    end.
Proof.
  rewrite request_unfold. unfold request_body. rewrite target.
  change (negb true) with false. cbv iota.
  rewrite run_log, run_catch, try_body_answered. reflexivity.
Qed.

(** Without a retry to make, the clauses only log and raise. *)
Lemma run_handlers_no_retry rec retried ri e w :
  retried = true \/ exn_class e <> KworkAuthException ->
  exists logs e',
    run transport
      (handlers self rec method api_method full_url timeout retried
         (drop_none kwargs) ri e) w
    = (World (w_token w) (w_trace w) (w_log w ++ logs), Raised e').
Proof.
  intros H. destruct w as [t tr lg]. unfold handlers, isinstance.
  destruct (bool_decide (exn_class e = KworkAuthException)) eqn:Ha.
  - apply bool_decide_eq_true in Ha.
    destruct H as [-> | H]; [| contradiction].
    eexists [_], _. reflexivity.
  - destruct (bool_decide (exn_class e = ClientError)).
    + eexists [], _. simpl. rewrite app_nil_r. reflexivity.
    + destruct (bool_decide (exn_class e = JSONDecodeError)).
      * eexists [], _. simpl. rewrite app_nil_r. reflexivity.
      * eexists [_], _. reflexivity.
Qed.
End AttemptAnswered.

(** X3: a call of [request] with [retried] true calls the transport exactly
    once, whatever the answer is, leaves the cached token as it is, and
    comes back (with a result or an exception). *)
Theorem retried_call_makes_one_attempt
    transport self fuel method api_method full_url timeout kwargs w :
  opt_truthy api_method || opt_truthy full_url = true ->
  let r :=
    run transport
      (request (S fuel) self method api_method full_url timeout true kwargs)
      w in
  w_trace r.1
  = w_trace w ++ [request_sent self method api_method full_url timeout kwargs]
  /\ w_token r.1 = w_token w
  /\ r.2 <> Diverged.
Proof.
  intros Ht r. subst r.
  rewrite (run_request_answered transport self method api_method full_url
             timeout kwargs Ht fuel true w).
  destruct (run_answered transport
              (request_context method api_method full_url kwargs)
              (transport (w_trace w)
                 (request_sent self method api_method full_url timeout
                    kwargs))
              (sent_from (request_logged method api_method kwargs)
                 (request_sent self method api_method full_url timeout
                    kwargs) w))
    as (logs & o & -> & Ho).
  destruct o as [v | e |]; [simpl; auto | | contradiction].
  destruct (run_handlers_no_retry transport self method api_method full_url
              timeout kwargs (request fuel self) true
              (request_context method api_method full_url kwargs) e
              (World
                 (w_token
                    (sent_from (request_logged method api_method kwargs)
                       (request_sent self method api_method full_url
                          timeout kwargs) w))
                 (w_trace
                    (sent_from (request_logged method api_method kwargs)
                       (request_sent self method api_method full_url
                          timeout kwargs) w))
                 (w_log
                    (sent_from (request_logged method api_method kwargs)
                       (request_sent self method api_method full_url
                          timeout kwargs) w) ++ logs))
              (or_introl eq_refl))
    as (logs' & e' & ->).
  simpl. split; [reflexivity | split; [reflexivity | discriminate]].
Qed.

Lemma retried_call_makes_one_attempt_witness :
  rq_url <$>
    w_trace
      (run rejecting
         (request 1 me "post" (Some "actor") None 10 true
            {[ "token" := VStr "T1" ]}) signed_in).1
  = [ "https://api.kwork.ru/actor" ].
Proof.
  destruct (retried_call_makes_one_attempt rejecting me 0 "post"
              (Some "actor") None 10 {[ "token" := VStr "T1" ]} signed_in
              eq_refl)
    as (Htrace & _ & _).
  rewrite Htrace. reflexivity.
Defined.

(** ** The errors of one attempt *)

Section ErrorTable.
Variable transport : list net_request -> net_request -> transport_result.
Variable self : KworkAPI.
Variable fuel : nat.
Variables (method : string) (api_method full_url : option string).
Variables (timeout : Z) (retried : bool) (kwargs : gmap string value).
Variable w : world.
Hypothesis target : opt_truthy api_method || opt_truthy full_url = true.

Let rq := request_sent self method api_method full_url timeout kwargs.
Let ri := request_context method api_method full_url kwargs.
Let call :=
  run transport
    (request (S fuel) self method api_method full_url timeout retried kwargs)
    w.

(** X4: when the transport raises an [aiohttp.ClientError], the caller gets
    a [KworkConnectionException] that carries the message, the redacted
    request context and the original error as its cause; the transport was
    called once and the cache is untouched. *)
Theorem client_error_becomes_connection_exception msg :
  transport (w_trace w) rq = TransportRaises ClientError msg ->
  call.2
  = Raised (Exn KworkConnectionException ("Ошибка сети: " +:+ msg) VNone
              (Some ri) (Some (builtin_exn ClientError msg)))
  /\ w_trace call.1 = w_trace w ++ [rq]
  /\ w_token call.1 = w_token w.
Proof.
  intros Hr. subst call.
  rewrite (run_request_answered transport self method api_method full_url
             timeout kwargs target fuel retried w).
  fold rq. rewrite Hr. simpl. unfold handlers, isinstance. simpl.
  repeat split.
Qed.

(** X5: an exception of the transport that is no [aiohttp.ClientError]
    (nor a JSON or authentication error), a timeout for one, is not
    reported as a connection error: the caller gets the generic
    [KworkException], with the original error as its cause, after one call
    of the transport. *)
Theorem other_transport_error_becomes_generic_exception cls msg :
  cls <> ClientError -> cls <> JSONDecodeError ->
  cls <> KworkAuthException ->
  transport (w_trace w) rq = TransportRaises cls msg ->
  call.2
  = Raised (Exn KworkException ("Неизвестная ошибка: " +:+ msg) VNone
              (Some ri) (Some (builtin_exn cls msg)))
  /\ w_trace call.1 = w_trace w ++ [rq]
  /\ w_token call.1 = w_token w.
Proof.
  intros H1 H2 H3 Hr. subst call.
  rewrite (run_request_answered transport self method api_method full_url
             timeout kwargs target fuel retried w).
  fold rq. rewrite Hr. simpl.
  rewrite handlers_unexpected by assumption.
  repeat split.
Qed.

(** X6: an answer whose content type is not JSON makes [request] raise a
    [KworkApiException] with the status as its code and the text of the
    answer in its message; raised inside the [try], it reaches the caller
    wrapped in a [KworkException].  The body is not decoded, nothing is
    retried. *)
Theorem non_json_answer_is_refused status content_type text decoded :
  content_type <> "application/json" ->
  transport (w_trace w) rq
  = TransportResponse status content_type text decoded ->
  call.2
  = Raised (Exn KworkException
              ("Неизвестная ошибка: "
                 +:+ ("Недопустимый формат ответа: " +:+ text))
              VNone (Some ri)
              (Some (Exn KworkApiException
                       ("Недопустимый формат ответа: " +:+ text)
                       (VInt status) (Some ri) None)))
  /\ w_trace call.1 = w_trace w ++ [rq]
  /\ w_token call.1 = w_token w.
Proof.
  intros Hct Hr. subst call.
  rewrite (run_request_answered transport self method api_method full_url
             timeout kwargs target fuel retried w).
  fold rq. rewrite Hr. simpl.
  apply String.eqb_neq in Hct. rewrite Hct. simpl.
  repeat split.
Qed.

(** X7: a JSON answer whose body cannot be decoded makes the caller get a
    [KworkApiException] whose cause is the decoding error; this one is
    raised by its own clause and is not wrapped. *)
Theorem undecodable_body_becomes_api_exception status text m :
  transport (w_trace w) rq
  = TransportResponse status "application/json" text (inl m) ->
  call.2
  = Raised (Exn KworkApiException ("Недопустимый json: " +:+ m) VNone
              (Some ri) (Some (builtin_exn JSONDecodeError m)))
  /\ w_trace call.1 = w_trace w ++ [rq]
  /\ w_token call.1 = w_token w.
Proof.
  intros Hr. subst call.
  rewrite (run_request_answered transport self method api_method full_url
             timeout kwargs target fuel retried w).
  fold rq. rewrite Hr. simpl. repeat split.
Qed.

(** X8: a body that reports a failure without an error message is treated
    as the failure "Unknown error": a generic API error with the error
    code of the body, which reaches the caller wrapped in a
    [KworkException]; nothing is retried. *)
Theorem failure_without_message_is_unknown_error status text d :
  transport (w_trace w) rq = json_answer status text d ->
  truthy (default VNone (d !! "success")) = false ->
  d !! "error" = None ->
  call.2
  = Raised (Exn KworkException ("Неизвестная ошибка: " +:+ "Unknown error")
              VNone (Some ri)
              (Some (Exn KworkApiException "Unknown error"
                       (default VNone (d !! "error_code")) (Some ri) None)))
  /\ w_trace call.1 = w_trace w ++ [rq]
  /\ w_token call.1 = w_token w.
Proof.
  intros Hr Hs He. subst call.
  rewrite (run_request_answered transport self method api_method full_url
             timeout kwargs target fuel retried w).
  fold rq. rewrite Hr. unfold json_answer, answered, check_response. simpl.
  rewrite Hs, He. simpl. repeat split.
Qed.

(** X9: a body that decodes to something else than an object (a JSON array,
    say) is no result: reading its success flag fails, and the caller gets
    a [KworkException] caused by the [AttributeError]. *)
Theorem non_object_body_is_refused status text j :
  (forall d, j <> VDict d) ->
  transport (w_trace w) rq
  = TransportResponse status "application/json" text (inr j) ->
  call.2
  = Raised (Exn KworkException
              ("Неизвестная ошибка: " +:+ "object has no attribute 'get'")
              VNone (Some ri)
              (Some (builtin_exn AttributeError
                       "object has no attribute 'get'")))
  /\ w_trace call.1 = w_trace w ++ [rq]
  /\ w_token call.1 = w_token w.
Proof.
  intros Hj Hr. subst call.
  rewrite (run_request_answered transport self method api_method full_url
             timeout kwargs target fuel retried w).
  fold rq. rewrite Hr. unfold answered, check_response. simpl.
  destruct j as [| | | | |d];
    [.. | exfalso; apply (Hj d); reflexivity]; simpl; repeat split.
Qed.
End ErrorTable.

Lemma client_error_becomes_connection_exception_witness :
  exn_class <$>
    match (run unreachable
             (request 1 me "post" (Some "actor") None 10 false with_t1)
             signed_in).2 with
    | Raised e => Some e
    | _ => None
    end
  = Some KworkConnectionException.
Proof.
  rewrite (proj1 (client_error_becomes_connection_exception
                    unreachable me 0 "post" (Some "actor") None 10 false
                    with_t1 signed_in eq_refl "Cannot connect to host"
                    eq_refl)).
  reflexivity.
Defined.

Lemma other_transport_error_becomes_generic_exception_witness :
  exn_class <$>
    match (run timing_out
             (request 1 me "post" (Some "actor") None 10 false with_t1)
             signed_in).2 with
    | Raised e => Some e
    | _ => None
    end
  = Some KworkException.
Proof.
  rewrite (proj1 (other_transport_error_becomes_generic_exception
                    timing_out me 0 "post" (Some "actor") None 10 false
                    with_t1 signed_in eq_refl OtherError "TimeoutError"
                    ltac:(discriminate) ltac:(discriminate)
                    ltac:(discriminate) eq_refl)).
  reflexivity.
Defined.

Lemma non_json_answer_is_refused_witness :
  exn_class <$>
    match (run gateway
             (request 1 me "post" (Some "actor") None 10 false with_t1)
             signed_in).2 with
    | Raised e => Some e
    | _ => None
    end
  = Some KworkException.
Proof.
  rewrite (proj1 (non_json_answer_is_refused
                    gateway me 0 "post" (Some "actor") None 10 false
                    with_t1 signed_in eq_refl 502 "text/html"
                    "<html>Bad Gateway</html>" (inl "Expecting value")
                    ltac:(discriminate) eq_refl)).
  reflexivity.
Defined.

Lemma undecodable_body_becomes_api_exception_witness :
  exn_class <$>
    match (run garbled
             (request 1 me "post" (Some "actor") None 10 false with_t1)
             signed_in).2 with
    | Raised e => Some e
    | _ => None
    end
  = Some KworkApiException.
Proof.
  rewrite (proj1 (undecodable_body_becomes_api_exception
                    garbled me 0 "post" (Some "actor") None 10 false
                    with_t1 signed_in eq_refl 200 "{"
                    "Expecting property name" eq_refl)).
  reflexivity.
Defined.

Lemma failure_without_message_is_unknown_error_witness :
  exn_msg <$>
    match (run terse
             (request 1 me "post" (Some "actor") None 10 false with_t1)
             signed_in).2 with
    | Raised e => exn_cause e
    | _ => None
    end
  = Some "Unknown error".
Proof.
  rewrite (proj1 (failure_without_message_is_unknown_error
                    terse me 0 "post" (Some "actor") None 10 false
                    with_t1 signed_in eq_refl 200 ""
                    {[ "success" := VBool false; "error_code" := VInt 17 ]}
                    eq_refl eq_refl eq_refl)).
  reflexivity.
Defined.

Lemma non_object_body_is_refused_witness :
  exn_class <$>
    match (run listing
             (request 1 me "post" (Some "actor") None 10 false with_t1)
             signed_in).2 with
    | Raised e => exn_cause e
    | _ => None
    end
  = Some AttributeError.
Proof.
  rewrite (proj1 (non_object_body_is_refused
                    listing me 0 "post" (Some "actor") None 10 false
                    with_t1 signed_in eq_refl 200 "[]" (VList [])
                    ltac:(discriminate) eq_refl)).
  reflexivity.
Defined.

(** ** The token cache *)

(** X10: [token] on an empty cache signs in and stores what [get_token]
    returns; from then on [token] returns the stored token and does
    nothing else: no request, no write, no log. *)
Theorem token_is_cached transport fuel fuel' self w w1 tok :
  w_token w = VNone ->
  run transport (get_token fuel self) w = (w1, Returned tok) ->
  run transport (token fuel self) w = (with_token tok w1, Returned tok)
  /\ run transport (token fuel' self) (with_token tok w1)
     = (with_token tok w1, Returned tok).
Proof.
  intros Hw Hg. split.
  - rewrite run_token_empty by exact Hw. unfold prog_bind. rewrite Hg.
    reflexivity.
  - rewrite run_token_cached; [reflexivity |].
    simpl. eapply truthy_not_none, get_token_truthy. exact Hg.
Qed.

Lemma token_is_cached_witness :
  run dialog_service (token 1 me) fresh
  = (with_token (VStr "T2") (run dialog_service (get_token 1 me) fresh).1,
     Returned (VStr "T2"))
  /\ run dialog_service (token 0 me)
       (with_token (VStr "T2") (run dialog_service (get_token 1 me) fresh).1)
     = (with_token (VStr "T2")
          (run dialog_service (get_token 1 me) fresh).1,
        Returned (VStr "T2")).
Proof.
  apply (token_is_cached dialog_service 1 0 me fresh).
  - reflexivity.
  - vm_compute. reflexivity.
Defined.

(** X11: when the sign-in is answered with a success that holds no token
    (none under [response.token], or a false value there), [token] raises
    an authentication error that carries no request context, after the one
    request of the sign-in; the cache stays empty. *)
Theorem sign_in_without_token_is_auth_error
    transport fuel self w status text d t :
  w_token w = VNone ->
  transport (w_trace w) (sign_in_request self) = json_answer status text d ->
  truthy (default VNone (d !! "success")) = true ->
  py_get (default (VDict ∅) (d !! "response")) "token" VNone = inr t ->
  truthy t = false ->
  exists w',
    run transport (token (S fuel) self) w
    = (w', Raised (Exn KworkAuthException
                     "Failed to retrieve token from signIn response."
                     VNone None None))
    /\ w_trace w' = w_trace w ++ [sign_in_request self]
    /\ w_token w' = VNone.
Proof.
  intros Hw Hr Hs Ht Hf.
  rewrite run_token_empty by exact Hw. unfold prog_bind.
  unfold get_token, get_token_body. rewrite run_bind. unfold prog_bind.
  rewrite (run_request_success transport self "post" (Some "signIn") None 10
             _ eq_refl fuel false w status text d Hr Hs).
  rewrite run_bind. unfold prog_bind. rewrite run_lift. simpl.
  rewrite run_bind. unfold prog_bind. rewrite run_lift, Ht. simpl.
  rewrite Hf. simpl.
  eexists. split; [reflexivity |]. split; [reflexivity | exact Hw].
Qed.

Lemma sign_in_without_token_is_auth_error_witness :
  exists w',
    run tokenless (token 1 me) fresh
    = (w', Raised (Exn KworkAuthException
                     "Failed to retrieve token from signIn response."
                     VNone None None))
    /\ w_trace w' = w_trace fresh ++ [sign_in_request me]
    /\ w_token w' = VNone.
Proof.
  apply (sign_in_without_token_is_auth_error tokenless 0 me fresh 200 ""
           (<["success" := VBool true]> {[ "response" := VDict ∅ ]}) VNone);
    reflexivity.
Defined.

(** ** The refresh and the retry, continued *)

(** The call after a first authentication failure: the cache is cleared,
    [get_token] runs, and the request is issued again. *)
Lemma run_request_auth_retry
    transport self fuel method api_method full_url timeout kwargs w
    status text d m :
  opt_truthy api_method || opt_truthy full_url = true ->
  transport (w_trace w)
    (request_sent self method api_method full_url timeout kwargs)
  = json_answer status text d ->
  failure_body d m ->
  classify m = KworkAuthException ->
  run transport
    (request (S fuel) self method api_method full_url timeout false kwargs)
    w
  = (tok <~ run transport (get_token fuel self) ;;
     fun w2 =>
       run transport
         (request fuel self method api_method full_url timeout true
            (<["token" := tok]> (drop_none kwargs)))
         (with_token tok w2))
      (invalidated (request_logged method api_method kwargs)
         (request_sent self method api_method full_url timeout kwargs)
         status d w).
Proof.
  intros Ht Hr Hf Hc.
  rewrite (run_request_failure _ _ _ _ _ _ _ Ht _ _ _ _ _ _ _ Hr Hf).
  rewrite handlers_auth_first by exact Hc.
  rewrite run_log, run_set_token, run_bind.
  change (token_body self (request fuel self)) with (token fuel self).
  unfold prog_bind at 1. rewrite run_token_empty by reflexivity.
  unfold prog_bind.
  destruct (run transport (get_token fuel self) _) as [w2 [tok|e|]];
    reflexivity.
Qed.

(** X12: when the first attempt is answered with an authentication failure,
    the sign-in yields a token and the request issued again is answered
    with a success, the caller gets that second answer; the second attempt
    is the last call of the transport and the cache holds the new token. *)
Theorem auth_failure_then_success_returns_second_answer
    transport self fuel method api_method full_url timeout kwargs w
    status text d m w2 tok status' text' d' :
  opt_truthy api_method || opt_truthy full_url = true ->
  transport (w_trace w)
    (request_sent self method api_method full_url timeout kwargs)
  = json_answer status text d ->
  failure_body d m ->
  classify m = KworkAuthException ->
  run transport (get_token (S fuel) self)
    (invalidated (request_logged method api_method kwargs)
       (request_sent self method api_method full_url timeout kwargs)
       status d w)
  = (w2, Returned tok) ->
  transport (w_trace w2)
    (request_sent self method api_method full_url timeout
       (<["token" := tok]> (drop_none kwargs)))
  = json_answer status' text' d' ->
  truthy (default VNone (d' !! "success")) = true ->
  exists w3,
    run transport
      (request (S (S fuel)) self method api_method full_url timeout false
         kwargs) w
    = (w3, Returned (VDict d'))
    /\ w_trace w3
       = w_trace w2
         ++ [request_sent self method api_method full_url timeout
               (<["token" := tok]> (drop_none kwargs))]
    /\ w_token w3 = tok.
Proof.
  intros Ht Hr Hf Hc Hg Hr' Hs'.
  rewrite (run_request_auth_retry transport self (S fuel) method api_method
             full_url timeout kwargs w status text d m Ht Hr Hf Hc).
  unfold prog_bind. rewrite Hg.
  change (w_trace w2) with (w_trace (with_token tok w2)) in Hr'.
  rewrite (run_request_success transport self method api_method full_url
             timeout _ Ht fuel true _ status' text' d' Hr' Hs').
  eexists. split; [reflexivity |]. split; reflexivity.
Qed.

Lemma auth_failure_then_success_returns_second_answer_witness :
  exists w3,
    run expiring
      (request 2 me "post" (Some "inboxes") None 10 false inbox_params)
      signed_in
    = (w3, Returned (VDict (<["success" := VBool true]>
                              {[ "response" := VList [record 1] ]})))
    /\ rq_url <$> w_trace w3
       = [ "https://api.kwork.ru/inboxes"; "https://api.kwork.ru/signIn";
           "https://api.kwork.ru/inboxes" ]
    /\ w_token w3 = VStr "T2".
Proof.
  destruct (auth_failure_then_success_returns_second_answer
              expiring me 0 "post" (Some "inboxes") None 10 inbox_params
              signed_in 200 ""
              {[ "success" := VBool false; "error" := VStr "Invalid token" ]}
              "Invalid token"
              (run expiring (get_token 1 me)
                 (invalidated
                    (request_logged "post" (Some "inboxes") inbox_params)
                    (request_sent me "post" (Some "inboxes") None 10
                       inbox_params)
                    200
                    {[ "success" := VBool false;
                       "error" := VStr "Invalid token" ]} signed_in)).1
              (VStr "T2") 200 ""
              (<["success" := VBool true]>
                 {[ "response" := VList [record 1] ]}))
    as (w3 & Hrun & Htrace & Htok).
  - reflexivity.
  - reflexivity.
  - split; reflexivity.
  - reflexivity.
  - vm_compute. reflexivity.
  - vm_compute. reflexivity.
  - reflexivity.
  - exists w3. rewrite Hrun, Htrace, Htok. repeat split.
Defined.

(** X13: when the sign-in of the refresh fails, the caller gets the error
    of the sign-in, not the authentication error of its own request; the
    request is not issued again. *)
Theorem failed_refresh_raises_sign_in_error
    transport self fuel method api_method full_url timeout kwargs w
    status text d m w2 e :
  opt_truthy api_method || opt_truthy full_url = true ->
  transport (w_trace w)
    (request_sent self method api_method full_url timeout kwargs)
  = json_answer status text d ->
  failure_body d m ->
  classify m = KworkAuthException ->
  run transport (get_token fuel self)
    (invalidated (request_logged method api_method kwargs)
       (request_sent self method api_method full_url timeout kwargs)
       status d w)
  = (w2, Raised e) ->
  run transport
    (request (S fuel) self method api_method full_url timeout false kwargs)
    w
  = (w2, Raised e).
Proof.
  intros Ht Hr Hf Hc Hg.
  rewrite (run_request_auth_retry transport self fuel method api_method
             full_url timeout kwargs w status text d m Ht Hr Hf Hc).
  unfold prog_bind. rewrite Hg. reflexivity.
Qed.

Lemma failed_refresh_raises_sign_in_error_witness :
  exists w2 e,
    run locked_out
      (request 2 me "post" (Some "actor") None 10 false with_t1) signed_in
    = (w2, Raised e)
    /\ exn_class e = KworkConnectionException
    /\ rq_url <$> w_trace w2
       = [ "https://api.kwork.ru/actor"; "https://api.kwork.ru/signIn" ]
    /\ w_token w2 = VNone.
Proof.
  pose (d := {[ "success" := VBool false; "error" := VStr "Invalid token" ]}
             : gmap string value).
  pose (r := run locked_out (get_token 1 me)
               (invalidated (request_logged "post" (Some "actor") with_t1)
                  (request_sent me "post" (Some "actor") None 10 with_t1)
                  200 d signed_in)).
  exists r.1.
  exists (Exn KworkConnectionException
            ("Ошибка сети: " +:+ "Connection refused") VNone
            (Some (request_context "post" (Some "signIn") None
                     {[ "login" := VStr (login me);
                        "password" := VStr (password me);
                        "phone_last" := phone_last me ]}))
            (Some (builtin_exn ClientError "Connection refused"))).
  split; [| repeat split].
  apply (failed_refresh_raises_sign_in_error locked_out me 1 "post"
           (Some "actor") None 10 with_t1 signed_in 200 "" d
           "Invalid token").
  - reflexivity.
  - reflexivity.
  - split; reflexivity.
  - reflexivity.
  - vm_compute. reflexivity.
Defined.

(** ** Gathering tasks that need one answer *)

Lemma settle_immediate {A : Type} (c : coro A) r w :
  immediate c r -> task_result (settle c w).2 = Some r.
Proof.
  intros H. revert w. induction H; intros w; simpl; auto.
Qed.

Lemma settle_one_shot {A : Type} serve (c : coro A) r w :
  one_shot serve c r -> task_ok serve (settle c w).2 r.
Proof.
  intros H. revert w. induction H; intros w; simpl; auto.
  left. eauto.
Qed.

Lemma start_all_ok {A : Type} serve (tasks : list (coro A)) rs :
  Forall2 (one_shot serve) tasks rs ->
  forall w, Forall2 (task_ok serve) (start_all tasks w).2 rs.
Proof.
  induction 1 as [|c r tasks rs Hc Hrest IH]; intros w; simpl.
  - constructor.
  - pose proof (settle_one_shot serve c r w Hc) as Hs.
    destruct (settle c w) as [w1 c1]. specialize (IH w1).
    destruct (start_all tasks w1) as [w2 cs]. simpl in *.
    constructor; assumption.
Qed.

Lemma task_ok_done {A : Type} serve (c : coro A) r :
  task_ok serve c r -> is_Some (task_result c) -> task_result c = Some r.
Proof.
  intros [(rq & k & -> & _) | H] [x Hx]; [discriminate | exact H].
Qed.

Section Gather.
Context {A : Type}.
Variable transport : list net_request -> net_request -> transport_result.
Variable serve : net_request -> transport_result.
Hypothesis stateless : forall hist rq, transport hist rq = serve rq.

Lemma resume_ok (c : coro A) r w :
  task_ok serve c r -> task_result (resume transport c w).2 = Some r.
Proof.
  intros [(rq & k & -> & Hk) | H].
  - simpl. rewrite stateless. apply settle_immediate, Hk.
  - destruct c; simpl in *; try discriminate; exact H.
Qed.

(** Every task the schedule names has ended when the schedule is through,
    and a task that has ended keeps its result. *)
Lemma schedule_ok sched :
  forall (pool : list (coro A)) rs w,
    Forall2 (task_ok serve) pool rs ->
    Forall2 (task_ok serve) (schedule transport sched pool w).2 rs
    /\ forall j c,
         (schedule transport sched pool w).2 !! j = Some c ->
         j ∈ sched
         \/ (exists c0, pool !! j = Some c0 /\ is_Some (task_result c0)) ->
         is_Some (task_result c).
Proof.
  induction sched as [|i rest IH]; intros pool rs w Hpool; simpl.
  - split; [exact Hpool |].
    intros j c Hj [Hin | (c0 & Hc0 & Hdone)].
    + apply elem_of_nil in Hin. contradiction.
    + congruence.
  - destruct (pool !! i) as [c|] eqn:Hi.
    + destruct (Forall2_lookup_l _ _ _ _ _ Hpool Hi) as (r & Hr & Hok).
      pose proof (resume_ok c r w Hok) as Hres.
      destruct (resume transport c w) as [w' c']. simpl in Hres.
      assert (Forall2 (task_ok serve) (<[i := c']> pool) rs) as Hpool'.
      { rewrite <- (list_insert_id rs i r Hr).
        apply Forall2_insert; [exact Hpool | right; exact Hres]. }
      destruct (IH (<[i := c']> pool) rs w' Hpool') as [Hall Hdone].
      split; [exact Hall |].
      intros j c1 Hj Hcase. apply (Hdone j c1 Hj).
      destruct Hcase as [Hin | (c0 & Hc0 & Hd)].
      * apply elem_of_cons in Hin as [-> | Hin]; [| left; exact Hin].
        right. exists c'. split; [| rewrite Hres; eauto].
        apply list_lookup_insert_eq. eapply lookup_lt_Some, Hi.
      * destruct (decide (i = j)) as [-> | Hne].
        -- right. exists c'. split; [| rewrite Hres; eauto].
           apply list_lookup_insert_eq. eapply lookup_lt_Some, Hi.
        -- right. exists c0. split; [| exact Hd].
           rewrite list_lookup_insert_ne by exact Hne. exact Hc0.
    + destruct (IH pool rs w Hpool) as [Hall Hdone].
      split; [exact Hall |].
      intros j c1 Hj Hcase. apply (Hdone j c1 Hj).
      destruct Hcase as [Hin | Hd]; [| right; exact Hd].
      apply elem_of_cons in Hin as [-> | Hin]; [| left; exact Hin].
      exfalso.
      apply lookup_lt_Some in Hj. apply lookup_ge_None in Hi.
      rewrite (Forall2_length _ _ _ Hall) in Hj.
      rewrite (Forall2_length _ _ _ Hpool) in Hi. lia.
Qed.

(** When the answers of the service do not depend on what it was asked
    before and every task needs just one answer to end, [gather] comes
    back as soon as every task was answered, and its results are those of
    the tasks in the order of the tasks, whatever the order of the
    answers. *)
Lemma gather_restores_task_order sched (tasks : list (coro A)) rs w :
  Forall2 (one_shot serve) tasks rs ->
  (forall i, (i < length tasks)%nat -> i ∈ sched) ->
  (gather transport sched tasks w).2 = Returned rs.
Proof.
  intros Htasks Hcover. unfold gather.
  pose proof (start_all_ok serve tasks rs Htasks w) as Hstart.
  destruct (start_all tasks w) as [w1 pool1]. simpl in Hstart.
  destruct (schedule_ok sched pool1 rs w1 Hstart) as [Hall Hdone].
  destruct (schedule transport sched pool1 w1) as [w2 pool2]. simpl in *.
  assert (mapM task_result pool2 = Some rs) as ->; [| reflexivity].
  apply mapM_Some. apply Forall2_same_length_lookup.
  split; [eapply Forall2_length, Hall |].
  intros j c r Hc Hr.
  destruct (Forall2_lookup_l _ _ _ _ _ Hall Hc) as (r' & Hr' & Hok).
  assert (r' = r) as -> by congruence.
  eapply task_ok_done; [exact Hok |].
  apply (Hdone j c Hc). left. apply Hcover.
  apply lookup_lt_Some in Hr.
  rewrite (Forall2_length _ _ _ Htasks). exact Hr.
Qed.
End Gather.

(** ** A call that needs one answer *)

Lemma handlers_immediate self rec method api_method full_url timeout
    retried params ri e :
  exn_class e <> KworkAuthException ->
  exists r,
    immediate
      (handlers self rec method api_method full_url timeout retried params
         ri e) r.
Proof.
  intros He. unfold handlers, isinstance.
  rewrite (bool_decide_eq_false_2 _ He).
  destruct (bool_decide (exn_class e = ClientError));
    [eexists; constructor |].
  destruct (bool_decide (exn_class e = JSONDecodeError));
    eexists; repeat constructor.
Qed.

Lemma answered_immediate self rec method api_method full_url timeout
    retried params ri a :
  ~ auth_failure a ->
  exists r,
    immediate
      (catch (answered ri a)
         (handlers self rec method api_method full_url timeout retried
            params ri)) r.
Proof.
  intros Ha.
  pose proof (fun e => handlers_immediate self rec method api_method
                         full_url timeout retried params ri e) as Hh.
  destruct a as [cls msg | status content_type text decoded]; simpl.
  - apply Hh. simpl. intros ->. apply Ha. left. eauto.
  - destruct (content_type =? "application/json")%string eqn:Hct; simpl.
    2: { apply Hh. discriminate. }
    apply String.eqb_eq in Hct. subst content_type.
    destruct decoded as [m | j]; simpl.
    { apply Hh. discriminate. }
    unfold check_response.
    destruct j as [| | | | |d]; simpl; try (apply Hh; discriminate).
    destruct (truthy (default VNone (d !! "success"))) eqn:Hs; simpl.
    { eexists. repeat constructor. }
    destruct (d !! "error") as [err|] eqn:He; simpl.
    + destruct err as [| | |m| |]; simpl;
        try (destruct (Hh (builtin_exn AttributeError
                             "object has no attribute 'lower'"))
               as [r Hr]; [discriminate |];
             exists r; constructor; exact Hr).
      destruct (Hh (Exn (classify m) m (default VNone (d !! "error_code"))
                      (Some ri) None)) as [r Hr].
      * simpl. intros Hc. apply Ha. right.
        exists status, text, d, m. repeat split; assumption.
      * exists r. constructor. exact Hr.
    + destruct (Hh (Exn (classify "Unknown error") "Unknown error"
                      (default VNone (d !! "error_code")) (Some ri) None))
        as [r Hr]; [discriminate |].
      exists r. constructor. exact Hr.
Qed.

Lemma request_one_shot serve self fuel method api_method full_url timeout
    retried kwargs :
  opt_truthy api_method || opt_truthy full_url = true ->
  ~ auth_failure
      (serve (request_sent self method api_method full_url timeout kwargs)) ->
  exists r,
    one_shot serve
      (request (S fuel) self method api_method full_url timeout retried
         kwargs) r.
Proof.
  intros Ht Ha. rewrite request_unfold. unfold request_body. rewrite Ht.
  change (negb true) with false. cbv iota.
  destruct (answered_immediate self (request fuel self) method api_method
              full_url timeout retried (drop_none kwargs)
              (request_context method api_method full_url kwargs) _ Ha)
    as [r Hr].
  exists r. constructor. rewrite try_body_answered. simpl.
  constructor. exact Hr.
Qed.

Lemma Forall2_choose {X Y : Type} (P : X -> Y -> Prop) (l : list X) :
  Forall (fun x => exists y, P x y) l -> exists k, Forall2 P l k.
Proof.
  induction 1 as [|x l [y Hy] _ [k Hk]].
  - exists []. constructor.
  - exists (y :: k). constructor; assumption.
Qed.

(** ** The fetch of all pages, continued *)

Lemma run_merge_pages transport api_method rs :
  Forall lists_records rs ->
  forall acc w,
    exists w',
      run transport (merge_pages api_method (VList acc) rs) w
      = (w', Returned (VList (acc ++ gathered_records rs)))
      /\ w_trace w' = w_trace w
      /\ w_token w' = w_token w.
Proof.
  induction 1 as [|r rs Hr Hrs IH]; intros acc w.
  - exists w. simpl. rewrite app_nil_r. auto.
  - destruct r as [e | p].
    + simpl. destruct (IH acc (with_log
                 (LogError ("Failed to fetch a page for " +:+ api_method
                              +:+ ": " +:+ str_exn e) None) w))
        as (w' & Hrun & Htr & Htok).
      exists w'. auto.
    + destruct Hr as [l Hl].
      change (merge_pages api_method (VList acc) (inr p :: rs))
        with (results' ← lift (r ← py_get p "response" (VList []);
                               py_extend (VList acc) r);
              merge_pages api_method results' rs).
      rewrite run_bind. unfold prog_bind. rewrite run_lift, Hl. simpl.
      destruct (IH (acc ++ l) w) as (w' & Hrun & Htr & Htok).
      exists w'. rewrite Hrun. unfold response_records. rewrite Hl.
      rewrite <- app_assoc. auto.
Qed.

(** What [merge_pages] comes to does not depend on the world it runs in:
    it only logs. *)
Lemma merge_pages_outcome transport api_method rs :
  forall acc w w',
    (run transport (merge_pages api_method acc rs) w).2
    = (run transport (merge_pages api_method acc rs) w').2.
Proof.
  induction rs as [|r rs IH]; intros acc w w'; [reflexivity |].
  destruct r as [e | p].
  - simpl. apply IH.
  - change (merge_pages api_method acc (inr p :: rs))
      with (results' ← lift (r ← py_get p "response" (VList []);
                             py_extend acc r);
            merge_pages api_method results' rs).
    rewrite !run_bind. unfold prog_bind. rewrite !run_lift.
    destruct (r ← py_get p "response" (VList []); py_extend acc r)
      as [e | results']; simpl; [reflexivity | apply IH].
Qed.

Section ManyPages.
Context {A : Type}.
Variable transport : list net_request -> net_request -> transport_result.
Variable self : KworkAPI.
Variable fuel : nat.
Variable model : value -> exn + A.
Variables (api_method : string) (params : gmap string value).
Hypothesis no_page : params !! "page" = None.

Lemma fetch_first_page_raises sched w w1 e :
  run transport (page_call fuel self api_method params 1) w
  = (w1, Raised e) ->
  _fetch_paginated_data transport self fuel model sched api_method params w
  = (w1, Raised e).
Proof.
  intros H. unfold _fetch_paginated_data, kwargs_page. rewrite no_page.
  unfold prog_bind at 1. unfold pure at 1.
  unfold prog_bind at 1. unfold page_call in H. rewrite H. reflexivity.
Qed.

(** With more than one page reported, the fetch gathers the calls for the
    other pages and merges what they give. *)
Lemma fetch_many_pages sched w w1 d1 dp n :
  run transport (page_call fuel self api_method params 1) w
  = (w1, Returned (VDict d1)) ->
  d1 !! "paging" = Some (VDict dp) ->
  dp !! "pages" = Some (VInt n) ->
  1 < n ->
  _fetch_paginated_data transport self fuel model sched api_method params w
  = (others <~
       gather transport sched
         (page_call fuel self api_method params <$> other_pages n) ;;
     results' <~
       run transport
         (merge_pages api_method (default (VList []) (d1 !! "response"))
            others) ;;
     pure (items ← py_iter results'; map_model model items)) w1.
Proof.
  intros Hfirst Hpaging Hpages Hn.
  rewrite (fetch_first_page transport self fuel model api_method params
             no_page sched w w1 (VDict d1) Hfirst).
  unfold prog_bind at 1. unfold pure at 1. simpl py_get. rewrite Hpaging.
  simpl default.
  unfold prog_bind at 1. unfold pure at 1.
  rewrite (dict_with_key_truthy dp "pages" _ Hpages).
  change (negb true) with false. cbv iota.
  simpl py_get. rewrite Hpages. simpl default.
  change (inr (VInt n) ≫= fun pages : value => py_le_1 pages)
    with (@inr exn bool (n <=? 1)).
  assert ((n <=? 1) = false) as -> by (apply Z.leb_gt; exact Hn).
  cbv iota beta.
  unfold prog_bind at 1. unfold pure at 1. simpl py_getitem. rewrite Hpages.
  unfold prog_bind at 1. unfold pure at 1.
  unfold prog_bind at 1. unfold pure at 1.
  reflexivity.
Qed.
End ManyPages.

(** X15: a failure of the call for the first page is not tolerated: the
    fetch raises the error of that call and asks for no other page, its
    world being the one the call left. *)
Theorem first_page_failure_fails_the_fetch
    {A : Type} transport self fuel (model : value -> exn + A) sched
    api_method params w w1 e :
  params !! "page" = None ->
  run transport (page_call fuel self api_method params 1) w
  = (w1, Raised e) ->
  _fetch_paginated_data transport self fuel model sched api_method params w
  = (w1, Raised e).
Proof. intros Hp H. apply fetch_first_page_raises; assumption. Qed.

Lemma first_page_failure_fails_the_fetch_witness :
  exists w1 e,
    _fetch_paginated_data unreachable me 1 raw_record [0; 1]%nat "projects"
      with_t1 signed_in
    = (w1, Raised e)
    /\ exn_class e = KworkConnectionException
    /\ length (w_trace w1) = 1%nat.
Proof.
  eexists _, _. split; [| split].
  - apply (first_page_failure_fails_the_fetch unreachable me 1 raw_record
             [0; 1]%nat "projects" with_t1 signed_in).
    + reflexivity.
    + vm_compute. reflexivity.
  - reflexivity.
  - reflexivity.
Defined.

(** X16: when the first page reports [n > 1] pages, the fetch returns the
    records of the first page followed by those of every gathered page
    that came, in the order of the pages; the pages whose call ended with
    an exception are left out, however many they are, and the fetch sends
    nothing after the gathering. *)
Theorem fetch_merges_the_pages_that_came
    {A : Type} transport self fuel (model : value -> exn + A) sched
    api_method params w w1 w2 d1 dp n r1 rs :
  params !! "page" = None ->
  run transport (page_call fuel self api_method params 1) w
  = (w1, Returned (VDict d1)) ->
  d1 !! "paging" = Some (VDict dp) ->
  dp !! "pages" = Some (VInt n) ->
  1 < n ->
  default (VList []) (d1 !! "response") = VList r1 ->
  gather transport sched
    (page_call fuel self api_method params <$> other_pages n) w1
  = (w2, Returned rs) ->
  Forall lists_records rs ->
  exists w',
    _fetch_paginated_data transport self fuel model sched api_method params
      w
    = (w', built (map_model model (r1 ++ gathered_records rs)))
    /\ w_trace w' = w_trace w2.
Proof.
  intros Hp Hfirst Hpaging Hpages Hn Hr1 Hg Hrs.
  rewrite (fetch_many_pages transport self fuel model api_method params Hp
             sched w w1 d1 dp n Hfirst Hpaging Hpages Hn).
  unfold prog_bind at 1. rewrite Hg. rewrite Hr1.
  destruct (run_merge_pages transport api_method rs Hrs r1 w2)
    as (w' & Hrun & Htr & _).
  unfold prog_bind. rewrite Hrun. unfold pure. simpl.
  exists w'. split; [| exact Htr].
  destruct (map_model model (r1 ++ gathered_records rs)); reflexivity.
Qed.

Lemma fetch_merges_the_pages_that_came_witness :
  (_fetch_paginated_data five_pages me 1 raw_record [0; 1; 2; 3]%nat
     "projects" with_t1 signed_in).2
  = Returned [record 10; record 11; record 20; record 21;
              record 40; record 41; record 50; record 51].
Proof.
  pose (r1 := run five_pages (page_call 1 me "projects" with_t1 1) signed_in).
  pose (g := gather five_pages [0; 1; 2; 3]%nat
               (page_call 1 me "projects" with_t1 <$> other_pages 5) r1.1).
  destruct (fetch_merges_the_pages_that_came five_pages me 1 raw_record
              [0; 1; 2; 3]%nat "projects" with_t1 signed_in r1.1 g.1
              (<["success" := VBool true]>
                 {[ "paging" := VDict {[ "pages" := VInt 5 ]};
                    "response" := VList [record 10; record 11] ]})
              {[ "pages" := VInt 5 ]} 5 [record 10; record 11]
              (match g.2 with Returned rs => rs | _ => [] end))
    as (w' & Hrun & _).
  - reflexivity.
  - vm_compute. reflexivity.
  - reflexivity.
  - reflexivity.
  - lia.
  - reflexivity.
  - vm_compute. reflexivity.
  - vm_compute. repeat constructor; eexists; reflexivity.
  - rewrite Hrun. vm_compute. reflexivity.
Defined.

(** X17: when the answers of the service do not depend on the order of the
    requests and no request for a page after the first is answered with an
    authentication failure, what the fetch returns or raises does not
    depend on the order in which those pages are answered: any two
    schedules that answer every one of them give the same outcome. *)
Theorem fetch_outcome_is_schedule_independent
    {A : Type} transport serve self fuel (model : value -> exn + A)
    sched sched' api_method params w w1 d1 dp n :
  (forall hist rq, transport hist rq = serve rq) ->
  params !! "page" = None ->
  api_method <> "" ->
  run transport (page_call (S fuel) self api_method params 1) w
  = (w1, Returned (VDict d1)) ->
  d1 !! "paging" = Some (VDict dp) ->
  dp !! "pages" = Some (VInt n) ->
  1 < n ->
  (forall p, 2 <= p <= n ->
     ~ auth_failure (serve (page_request self api_method params p))) ->
  (forall i, (i < Z.to_nat (n - 1))%nat -> i ∈ sched) ->
  (forall i, (i < Z.to_nat (n - 1))%nat -> i ∈ sched') ->
  (_fetch_paginated_data transport self (S fuel) model sched api_method
     params w).2
  = (_fetch_paginated_data transport self (S fuel) model sched' api_method
       params w).2.
Proof.
  intros Hserve Hp Ham Hfirst Hpaging Hpages Hn Hno Hcov Hcov'.
  rewrite !(fetch_many_pages transport self (S fuel) model api_method params
              Hp _ w w1 d1 dp n Hfirst Hpaging Hpages Hn).
  assert (exists rs,
             Forall2 (one_shot serve)
               (page_call (S fuel) self api_method params <$> other_pages n)
               rs) as [rs Hrs].
  { apply Forall2_choose. apply Forall_fmap. apply Forall_forall.
    intros p Hin. unfold other_pages in Hin.
    apply list_elem_of_fmap in Hin as (k & -> & Hk).
    apply elem_of_seq in Hk.
    apply request_one_shot.
    - simpl. destruct api_method; [congruence | reflexivity].
    - apply Hno. lia. }
  assert (length (page_call (S fuel) self api_method params
                    <$> other_pages n) = Z.to_nat (n - 1)) as Hlen.
  { unfold other_pages. rewrite !length_fmap, length_seq. reflexivity. }
  pose proof (gather_restores_task_order transport serve Hserve sched _ rs
                w1 Hrs) as Hg.
  pose proof (gather_restores_task_order transport serve Hserve sched' _ rs
                w1 Hrs) as Hg'.
  rewrite Hlen in Hg, Hg'. specialize (Hg Hcov). specialize (Hg' Hcov').
  unfold prog_bind at 1 3.
  destruct (gather transport sched _ w1) as [w2 o].
  destruct (gather transport sched' _ w1) as [w2' o'].
  simpl in Hg, Hg'. subst o o'.
  unfold prog_bind, pure.
  pose proof (merge_pages_outcome transport api_method rs
                (default (VList []) (d1 !! "response")) w2 w2') as Hm.
  destruct (run transport (merge_pages api_method _ rs) w2) as [w3 o3].
  destruct (run transport (merge_pages api_method _ rs) w2') as [w3' o3'].
  simpl in Hm. subst o3'. destruct o3; reflexivity.
Qed.

Lemma fetch_outcome_is_schedule_independent_witness :
  (_fetch_paginated_data five_pages me 1 raw_record [3; 1; 0; 2]%nat
     "projects" with_t1 signed_in).2
  = (_fetch_paginated_data five_pages me 1 raw_record [0; 1; 2; 3]%nat
       "projects" with_t1 signed_in).2.
Proof.
  apply (fetch_outcome_is_schedule_independent
           five_pages five_pages_answer me 0 raw_record
           [3; 1; 0; 2]%nat [0; 1; 2; 3]%nat "projects" with_t1 signed_in
           (run five_pages (page_call 1 me "projects" with_t1 1) signed_in).1
           (<["success" := VBool true]>
              {[ "paging" := VDict {[ "pages" := VInt 5 ]};
                 "response" := VList [record 10; record 11] ]})
           {[ "pages" := VInt 5 ]} 5).
  - intros hist rq. reflexivity.
  - reflexivity.
  - discriminate.
  - vm_compute. reflexivity.
  - reflexivity.
  - reflexivity.
  - lia.
  - intros p Hp.
    assert (p = 2 \/ p = 3 \/ p = 4 \/ p = 5) as Hcases by lia.
    intros [(msg & H) | (status & text & d & m & H & (Hs & _) & _)];
      destruct Hcases as [-> | [-> | [-> | ->]]];
      vm_compute in H; try discriminate;
      inversion H; subst d; vm_compute in Hs; discriminate.
  - intros i Hi. change (Z.to_nat (5 - 1)) with 4%nat in Hi.
    assert (i = 0 \/ i = 1 \/ i = 2 \/ i = 3)%nat as Hc by lia.
    destruct Hc as [-> | [-> | [-> | ->]]]; set_solver.
  - intros i Hi. change (Z.to_nat (5 - 1)) with 4%nat in Hi.
    assert (i = 0 \/ i = 1 \/ i = 2 \/ i = 3)%nat as Hc by lia.
    destruct Hc as [-> | [-> | [-> | ->]]]; set_solver.
Defined.

(** ** The sequential fetch, continued *)

Section DialogsPrefix.
Context {A : Type}.
Variable transport : list net_request -> net_request -> transport_result.
Variable self : KworkAPI.
Variable fuel : nat.
Variable model : value -> exn + A.
Variable tok : value.

(** One turn of the loop on a page that is not empty. *)
Lemma dialogs_loop_turn rounds p dialogs w items records :
  items <> [] ->
  answers_with (transport (w_trace w) (dialogs_request self p tok)) items ->
  map_model model items = inr records ->
  exists w',
    run transport (dialogs_loop self (S fuel) model (S rounds) p dialogs tok)
      w
    = run transport
        (dialogs_loop self (S fuel) model rounds (p + 1) (dialogs ++ records)
           tok) w'
    /\ w_trace w' = w_trace w ++ [dialogs_request self p tok]
    /\ w_token w' = w_token w.
Proof.
  intros Hne (status & text & d & Hr & Hs & Hresp) Hm.
  unfold dialogs_request in Hr.
  rewrite dialogs_loop_unfold, run_bind. unfold prog_bind.
  rewrite (run_request_success transport self "post" (Some "dialogs") None
             10 _ eq_refl fuel false w status text d Hr Hs).
  rewrite run_bind. unfold prog_bind. rewrite run_lift.
  simpl. rewrite Hresp. simpl.
  destruct items as [|item items]; [congruence |]. simpl negb. cbv iota.
  rewrite run_bind. unfold prog_bind. rewrite run_lift.
  change (items0 ← inr (item :: items); map_model model items0)
    with (map_model model (item :: items)).
  rewrite Hm. simpl.
  eexists. split; [reflexivity |]. split; reflexivity.
Qed.

(** The loop through pages that are not empty. *)
Lemma dialogs_loop_prefix pages :
  forall rounds p dialogs w records,
    Forall (fun items => items <> []) pages ->
    serves transport self tok p pages ->
    map_model model (concat pages) = inr records ->
    exists w',
      run transport
        (dialogs_loop self (S fuel) model (length pages + rounds) p dialogs
           tok) w
      = run transport
          (dialogs_loop self (S fuel) model rounds
             (p + Z.of_nat (length pages)) (dialogs ++ records) tok) w'
      /\ w_trace w'
         = w_trace w
           ++ ((fun k => dialogs_request self (p + Z.of_nat k) tok)
                 <$> seq 0 (length pages))
      /\ w_token w' = w_token w.
Proof.
  induction pages as [|items pages IH];
    intros rounds p dialogs w records Hne Hserve Hmodel.
  - simpl in Hmodel. inversion Hmodel; subst.
    exists w. simpl. rewrite Z.add_0_r, !app_nil_r. auto.
  - apply Forall_cons in Hne as [Hitems Hne'].
    simpl in Hmodel. apply map_model_app in Hmodel
      as (r1 & r2 & Hm1 & Hm2 & ->).
    pose proof (Hserve (w_trace w) 0%nat items eq_refl) as H0.
    change (Z.of_nat 0) with 0 in H0. rewrite Z.add_0_r in H0.
    destruct (dialogs_loop_turn (length pages + rounds) p dialogs w items r1
                Hitems H0 Hm1) as (w1 & Hrun1 & Htr1 & Htok1).
    destruct (IH rounds (p + 1) (dialogs ++ r1) w1 r2 Hne') as
      (w' & Hrun & Htr & Htok).
    + intros hist k its Hk.
      replace (p + 1 + Z.of_nat k) with (p + Z.of_nat (S k)) by lia.
      apply Hserve. exact Hk.
    + exact Hm2.
    + exists w'. split; [| split].
      * change (length (items :: pages) + rounds)%nat
          with (S (length pages + rounds)).
        rewrite Hrun1, Hrun. rewrite <- app_assoc.
        replace (p + 1 + Z.of_nat (length pages))
          with (p + Z.of_nat (length (items :: pages)))
          by (simpl length; lia).
        reflexivity.
      * rewrite Htr, Htr1, <- app_assoc.
        change (length (items :: pages)) with (S (length pages)).
        rewrite (dialogs_requests_shift self tok p (length pages)).
        reflexivity.
      * rewrite Htok, Htok1. reflexivity.
Qed.
End DialogsPrefix.

Lemma run_request_client_error
    transport self fuel method api_method full_url timeout retried kwargs w
    msg :
  opt_truthy api_method || opt_truthy full_url = true ->
  transport (w_trace w)
    (request_sent self method api_method full_url timeout kwargs)
  = TransportRaises ClientError msg ->
  run transport
    (request (S fuel) self method api_method full_url timeout retried kwargs)
    w
  = (sent_from (request_logged method api_method kwargs)
       (request_sent self method api_method full_url timeout kwargs) w,
     Raised (Exn KworkConnectionException ("Ошибка сети: " +:+ msg) VNone
               (Some (request_context method api_method full_url kwargs))
               (Some (builtin_exn ClientError msg)))).
Proof.
  intros Ht Hr.
  rewrite (run_request_answered transport self method api_method full_url
             timeout kwargs Ht fuel retried w).
  rewrite Hr. reflexivity.
Qed.

(** X18: the sequential fetch tolerates no failure: when, after pages that
    came, the request for the next page fails (here: the connection
    fails), [get_all_dialogs] raises that error and the records of the
    pages fetched before are lost to the caller; no further page is asked
    for. *)
Theorem sequential_fetch_fails_with_a_failed_page
    {A : Type} transport self fuel (model : value -> exn + A) rounds
    w w1 tok pages records msg :
  run transport (token (S fuel) self) w = (w1, Returned tok) ->
  Forall (fun items => items <> []) pages ->
  serves transport self tok 1 pages ->
  map_model model (concat pages) = inr records ->
  (forall hist,
     transport hist (dialogs_request self (1 + Z.of_nat (length pages)) tok)
     = TransportRaises ClientError msg) ->
  (length pages < rounds)%nat ->
  exists w' e,
    run transport (get_all_dialogs self (S fuel) model rounds) w
    = (w', Raised e)
    /\ exn_class e = KworkConnectionException
    /\ exn_cause e = Some (builtin_exn ClientError msg)
    /\ w_trace w'
       = w_trace w1
         ++ ((fun k => dialogs_request self (1 + Z.of_nat k) tok)
               <$> seq 0 (S (length pages))).
Proof.
  intros Htok Hne Hserve Hmodel Hfail Hrounds.
  unfold get_all_dialogs. rewrite run_bind. unfold prog_bind. rewrite Htok.
  replace rounds with (length pages + S (rounds - S (length pages)))%nat
    by lia.
  destruct (dialogs_loop_prefix transport self fuel model tok pages
              (S (rounds - S (length pages))) 1 [] w1 records Hne Hserve
              Hmodel) as (w2 & Hrun & Htr & _).
  rewrite Hrun, dialogs_loop_unfold, run_bind. unfold prog_bind.
  rewrite (run_request_client_error transport self fuel "post"
             (Some "dialogs") None 10 false _ w2 msg eq_refl (Hfail _)).
  eexists _, _. split; [reflexivity |].
  split; [reflexivity | split; [reflexivity |]].
  simpl w_trace. rewrite Htr, <- app_assoc.
  rewrite seq_S, fmap_app. reflexivity.
Qed.

Lemma sequential_fetch_fails_with_a_failed_page_witness :
  exists w' e,
    run broken_listing (get_all_dialogs me 1 raw_record 5) signed_in
    = (w', Raised e)
    /\ exn_class e = KworkConnectionException
    /\ page_of <$> w_trace w' = [1; 2].
Proof.
  destruct (sequential_fetch_fails_with_a_failed_page
              broken_listing me 0 raw_record 5 signed_in signed_in
              (VStr "T1") [[record 1; record 2]] [record 1; record 2]
              "Connection reset by peer")
    as (w' & e & Hrun & Hc & _ & Htr).
  - reflexivity.
  - repeat constructor. discriminate.
  - intros hist k items Hk.
    destruct k as [|k]; simpl in Hk; inversion Hk; subst.
    eexists _, _, _. split; [reflexivity | split; reflexivity].
  - reflexivity.
  - intros hist. reflexivity.
  - simpl. lia.
  - exists w', e. split; [exact Hrun |]. split; [exact Hc |].
    rewrite Htr. reflexivity.
Defined.

(** X19: the loop of [get_all_dialogs] has no bound of its own: against a
    service that answers every page with records (one that ignores the
    page number, say) it never ends; whatever the number of turns allowed,
    the call is still unfinished after as many requests. *)
Theorem sequential_fetch_needs_an_empty_page
    {A : Type} transport self fuel (model : value -> exn + A) w w1 tok :
  run transport (token (S fuel) self) w = (w1, Returned tok) ->
  never_runs_dry transport self model tok ->
  forall rounds,
    exists w',
      run transport (get_all_dialogs self (S fuel) model rounds) w
      = (w', Diverged)
      /\ length (w_trace w') = (length (w_trace w1) + rounds)%nat.
Proof.
  intros Htok Hdry rounds.
  unfold get_all_dialogs. rewrite run_bind. unfold prog_bind. rewrite Htok.
  clear Htok. generalize (@nil A) as dialogs. generalize 1 as p. revert w1.
  induction rounds as [|rounds IH]; intros w1 p dialogs.
  - exists w1. split; [reflexivity | lia].
  - destruct (Hdry (w_trace w1) p) as (items & records & Hne & Hans & Hm).
    destruct (dialogs_loop_turn transport self fuel model tok rounds p
                dialogs w1 items records Hne Hans Hm)
      as (w2 & Hrun & Htr & Htk).
    destruct (IH w2 (p + 1) (dialogs ++ records)) as (w' & Hrun' & Hlen).
    exists w'. rewrite Hrun, Hrun'. split; [reflexivity |].
    rewrite Hlen, Htr, length_app. simpl. lia.
Qed.

Lemma sequential_fetch_needs_an_empty_page_witness :
  exists w',
    run same_page (get_all_dialogs me 1 raw_record 7) signed_in
    = (w', Diverged)
    /\ length (w_trace w') = 7%nat.
Proof.
  apply (sequential_fetch_needs_an_empty_page same_page me 0 raw_record
           signed_in signed_in (VStr "T1")).
  - reflexivity.
  - intros hist p. exists [record 1], [record 1].
    split; [discriminate |]. split; [| reflexivity].
    eexists _, _, _. split; [reflexivity | split; reflexivity].
Defined.

(** X20: [get_all_dialogs] indexes the answer: a page that reports success
    without a [response] field makes it raise a bare [KeyError] (no
    Kwork exception, no request context), where [_fetch_paginated_data]
    would take the page as empty. *)
Theorem sequential_fetch_requires_response_field
    {A : Type} transport self fuel (model : value -> exn + A) rounds
    w w1 tok status text d :
  run transport (token (S fuel) self) w = (w1, Returned tok) ->
  transport (w_trace w1) (dialogs_request self 1 tok)
  = json_answer status text d ->
  truthy (default VNone (d !! "success")) = true ->
  d !! "response" = None ->
  exists w',
    run transport (get_all_dialogs self (S fuel) model (S rounds)) w
    = (w', Raised (builtin_exn KeyError "response"))
    /\ w_trace w' = w_trace w1 ++ [dialogs_request self 1 tok].
Proof.
  intros Htok Hr Hs Hresp.
  unfold get_all_dialogs. rewrite run_bind. unfold prog_bind. rewrite Htok.
  unfold dialogs_request in Hr.
  rewrite dialogs_loop_unfold, run_bind. unfold prog_bind.
  rewrite (run_request_success transport self "post" (Some "dialogs") None
             10 _ eq_refl fuel false w1 status text d Hr Hs).
  rewrite run_bind. unfold prog_bind. rewrite run_lift.
  simpl. rewrite Hresp. simpl.
  eexists. split; reflexivity.
Qed.

Lemma sequential_fetch_requires_response_field_witness :
  exists w',
    run bare (get_all_dialogs me 1 raw_record 1) signed_in
    = (w', Raised (builtin_exn KeyError "response"))
    /\ w_trace w' = w_trace signed_in ++ [dialogs_request me 1 (VStr "T1")].
Proof.
  apply (sequential_fetch_requires_response_field bare me 0 raw_record 0
           signed_in signed_in (VStr "T1") 200 ""
           (<["success" := VBool true]> ∅)); reflexivity.
Defined.

(** ** The methods that read a field of the answer *)

(** A call made with the cached token and answered with a success. *)
Lemma run_authorized {B : Type} transport self fuel api_method
    (kw : value -> gmap string value) (f : value -> coro B) w status text d :
  is_none (w_token w) = false ->
  api_method <> "" ->
  transport (w_trace w)
    (request_sent self "post" (Some api_method) None 10 (kw (w_token w)))
  = json_answer status text d ->
  truthy (default VNone (d !! "success")) = true ->
  run transport
    (tok ← token (S fuel) self;
     v ← request (S fuel) self "post" (Some api_method) None 10 false
           (kw tok);
     f v) w
  = run transport (f (VDict d))
      (attempted (request_logged "post" (Some api_method) (kw (w_token w)))
         (request_sent self "post" (Some api_method) None 10
            (kw (w_token w))) status d w).
Proof.
  intros Hc Ham Hr Hs.
  rewrite run_bind. unfold prog_bind. rewrite run_token_cached by exact Hc.
  rewrite run_bind. unfold prog_bind.
  assert (opt_truthy (Some api_method) || opt_truthy None = true) as Ht
    by (simpl; destruct api_method; [congruence | reflexivity]).
  rewrite (run_request_success transport self "post" (Some api_method) None
             10 _ Ht fuel false w status text d Hr Hs).
  reflexivity.
Qed.

(** X21: [get_me], [get_user], [get_categories], [get_connects] and
    [_get_channel] index the answer: when the service reports success
    without the field they read ([response], or [connects] for
    [get_connects]), the caller gets a bare [KeyError] naming the field,
    not a Kwork exception. *)
Theorem missing_field_raises_key_error
    {A : Type} transport self fuel (model : value -> exn + A) user_id w
    status text d :
  is_none (w_token w) = false ->
  (forall hist rq, transport hist rq = json_answer status text d) ->
  truthy (default VNone (d !! "success")) = true ->
  d !! "response" = None ->
  d !! "connects" = None ->
  (run transport (get_me self (S fuel) model) w).2
  = Raised (builtin_exn KeyError "response")
  /\ (run transport (get_user self (S fuel) model user_id) w).2
     = Raised (builtin_exn KeyError "response")
  /\ (run transport (get_categories self (S fuel) model) w).2
     = Raised (builtin_exn KeyError "response")
  /\ (run transport (get_connects self (S fuel) model) w).2
     = Raised (builtin_exn KeyError "connects")
  /\ (run transport (_get_channel self (S fuel)) w).2
     = Raised (builtin_exn KeyError "response").
Proof.
  intros Hc Hserve Hs Hresp Hconn.
  repeat split.
  - unfold get_me.
    rewrite (run_authorized transport self fuel "actor"
               (fun tok => {[ "token" := tok ]}) _ w status text d Hc
               ltac:(discriminate) (Hserve _ _) Hs).
    rewrite run_bind. unfold prog_bind. rewrite run_lift.
    simpl. rewrite Hresp. reflexivity.
  - unfold get_user.
    rewrite (run_authorized transport self fuel "user"
               (fun tok => {[ "id" := user_id; "token" := tok ]}) _ w status
               text d Hc ltac:(discriminate) (Hserve _ _) Hs).
    rewrite run_bind. unfold prog_bind. rewrite run_lift.
    simpl. rewrite Hresp. reflexivity.
  - unfold get_categories.
    rewrite (run_authorized transport self fuel "categories"
               (fun tok => {[ "type" := VStr "1"; "token" := tok ]}) _ w
               status text d Hc ltac:(discriminate) (Hserve _ _) Hs).
    rewrite run_bind. unfold prog_bind. rewrite run_lift.
    simpl. rewrite Hresp. reflexivity.
  - unfold get_connects.
    rewrite (run_authorized transport self fuel "projects"
               (fun tok => {[ "categories" := VStr ""; "token" := tok ]}) _ w
               status text d Hc ltac:(discriminate) (Hserve _ _) Hs).
    rewrite run_bind. unfold prog_bind. rewrite run_lift.
    simpl. rewrite Hconn. reflexivity.
  - unfold _get_channel.
    rewrite (run_authorized transport self fuel "getChannel"
               (fun tok => {[ "token" := tok ]}) _ w status text d Hc
               ltac:(discriminate) (Hserve _ _) Hs).
    rewrite run_bind. unfold prog_bind. rewrite run_lift.
    simpl. rewrite Hresp. reflexivity.
Qed.

Lemma missing_field_raises_key_error_witness :
  (run bare (get_categories me 1 raw_record) signed_in).2
  = Raised (builtin_exn KeyError "response")
  /\ (run bare (get_connects me 1 raw_record) signed_in).2
     = Raised (builtin_exn KeyError "connects").
Proof.
  destruct (missing_field_raises_key_error bare me 0 raw_record (VInt 7)
              signed_in 200 "" (<["success" := VBool true]> ∅))
    as (_ & _ & H3 & H4 & _); try reflexivity.
  split; assumption.
Defined.

(** ** Redaction, continued *)

(** X22: the parameter map of the diagnostics differs from the one that is
    sent only in the values of [password] and [token]: it has the same
    keys, and every other key holds the value that is sent. *)
Theorem redaction_touches_only_password_and_token
    self method api_method full_url timeout kwargs key :
  let sent :=
    rq_params (request_sent self method api_method full_url timeout kwargs) in
  (is_Some (logged_params kwargs !! key) <-> is_Some (sent !! key))
  /\ (key <> "password" -> key <> "token" ->
      logged_params kwargs !! key = sent !! key).
Proof.
  simpl. unfold logged_params.
  assert (forall k (m : gmap string value) j,
             is_Some (redact k m !! j) <-> is_Some (m !! j)) as Hdom.
  { intros k m j. destruct (decide (k = j)) as [-> | Hne].
    - rewrite redact_lookup_same. rewrite fmap_is_Some. reflexivity.
    - rewrite redact_lookup_ne by exact Hne. reflexivity. }
  split.
  - rewrite !Hdom. reflexivity.
  - intros Hp Ht. rewrite !redact_lookup_ne by congruence. reflexivity.
Qed.

(** ** The list of categories *)




(** ** The methods that return the answer as it is *)

Lemma run_request_authorized transport self fuel api_method full_url
    (kw : gmap string value) w status text d :
  is_none (w_token w) = false ->
  opt_truthy api_method || opt_truthy full_url = true ->
  kw !! "token" = Some (w_token w) ->
  transport (w_trace w)
    (request_sent self "post" api_method full_url 10 kw)
  = json_answer status text d ->
  truthy (default VNone (d !! "success")) = true ->
  one_authorized_request transport self w d
    (request (S fuel) self "post" api_method full_url 10 false kw).
Proof.
  intros Hc Ht Hk Hr Hs.
  exists (attempted (request_logged "post" api_method kw)
            (request_sent self "post" api_method full_url 10 kw) status d w),
    (request_sent self "post" api_method full_url 10 kw).
  split;
    [exact (run_request_success transport self "post" api_method full_url 10
              kw Ht fuel false w status text d Hr Hs) |].
  repeat split. simpl. apply drop_none_lookup. auto.
Qed.

Lemma one_authorized_request_token transport self fuel w d
    (f : value -> coro value) :
  is_none (w_token w) = false ->
  one_authorized_request transport self w d (f (w_token w)) ->
  one_authorized_request transport self w d
    (tok ← token (S fuel) self; f tok).
Proof.
  intros Hc (w' & rq & Hrun & H). exists w', rq. split; [| exact H].
  rewrite run_bind. unfold prog_bind. rewrite run_token_cached by exact Hc.
  exact Hrun.
Qed.

(** X24: with a token in the cache and a service that answers with a
    success, each of [set_offline], [set_online], [set_typing],
    [get_worker_orders], [get_payer_orders], [get_notifications],
    [delete_message] and (for a text and a recipient that are not empty)
    [send_message] returns the body of the answer as it is, after one
    request that carries the cached token and the key of the client; no
    sign-in takes place and the cache is left alone. *)
Theorem plain_methods_make_one_authorized_request
    transport self fuel recipient_id message_id user_id text w status
    body d :
  is_none (w_token w) = false ->
  truthy text = true -> truthy user_id = true ->
  (forall hist rq, transport hist rq = json_answer status body d) ->
  truthy (default VNone (d !! "success")) = true ->
  Forall (one_authorized_request transport self w d)
    (plain_methods self (S fuel) recipient_id message_id user_id text).
Proof.
  intros Hc Htext Hid Hserve Hs.
  assert (forall api_method full_url (kw : value -> gmap string value),
             opt_truthy api_method || opt_truthy full_url = true ->
             kw (w_token w) !! "token" = Some (w_token w) ->
             one_authorized_request transport self w d
               (tok ← token (S fuel) self;
                request (S fuel) self "post" api_method full_url 10 false
                  (kw tok))) as Hcall.
  { intros api_method full_url kw Ht Hk.
    apply (one_authorized_request_token transport self fuel w d
             (fun tok => request (S fuel) self "post" api_method full_url 10
                           false (kw tok)) Hc).
    exact (run_request_authorized transport self fuel api_method full_url
             (kw (w_token w)) w status body d Hc Ht Hk (Hserve _ _) Hs). }
  unfold plain_methods. repeat apply Forall_cons_2; try apply Forall_nil_2.
  - apply (Hcall (Some "offline") None (fun tok => {[ "token" := tok ]}));
      [reflexivity | apply lookup_singleton_eq].
  - apply (Hcall None (Some "https://kwork.ru/user_online")
             (fun tok => {[ "token" := tok ]}));
      [reflexivity | apply lookup_singleton_eq].
  - apply (Hcall (Some "typing") None
             (fun tok => {[ "recipientId" := recipient_id;
                            "token" := tok ]}));
      [reflexivity | by simplify_map_eq].
  - apply (Hcall (Some "workerOrders") None
             (fun tok => {[ "filter" := VStr "all"; "token" := tok ]}));
      [reflexivity | by simplify_map_eq].
  - apply (Hcall (Some "payerOrders") None
             (fun tok => {[ "filter" := VStr "all"; "token" := tok ]}));
      [reflexivity | by simplify_map_eq].
  - apply (Hcall (Some "notifications") None
             (fun tok => {[ "token" := tok ]}));
      [reflexivity | apply lookup_singleton_eq].
  - apply (Hcall (Some "inboxDelete") None
             (fun tok => {[ "id" := message_id; "token" := tok ]}));
      [reflexivity | by simplify_map_eq].
  - unfold send_message. rewrite Htext, Hid. simpl negb. simpl orb.
    cbv iota.
    pose (kw := {[ "user_id" := user_id; "text" := text;
                   "token" := w_token w ]} : gmap string value).
    exists (attempted (request_logged "post" (Some "inboxCreate") kw)
              (request_sent self "post" (Some "inboxCreate") None 10 kw)
              status d
              (with_log (LogDebug "Отправка сообщения пользователю") w)),
      (request_sent self "post" (Some "inboxCreate") None 10 kw).
    split.
    + rewrite run_log, run_bind. unfold prog_bind.
      rewrite run_token_cached by exact Hc.
      exact (run_request_success transport self "post" (Some "inboxCreate")
               None 10 kw eq_refl fuel false
               (with_log (LogDebug "Отправка сообщения пользователю") w)
               status body d (Hserve _ _) Hs).
    + repeat split. simpl. apply drop_none_lookup.
      split; [by subst kw; simplify_map_eq | exact Hc].
Qed.

Lemma plain_methods_make_one_authorized_request_witness :
  Forall
    (one_authorized_request bare me signed_in (<["success" := VBool true]> ∅))
    (plain_methods me 1 (VInt 7) (VInt 9) (VInt 7) (VStr "hello")).
Proof.
  apply (plain_methods_make_one_authorized_request bare me 0 (VInt 7)
           (VInt 9) (VInt 7) (VStr "hello") signed_in 200 "");
    try reflexivity.
Defined.
